(** * Fireman: the Firestore query engine ([src/firestore/firestore.ts])

    A shallow embedding of the query interpretation and execution engine:
    [getQueryType] (the component classifier), [parseQuery] (the reference
    builder), [getResult] (one-shot execution), [setListener] (live
    subscriptions) and the public entry point [query].

    The module talks to three collaborators whose code lives elsewhere: the FQL
    parser, the Firebase Admin SDK / Firestore client, and the [Document] and
    [QueryResult] classes.  They are gathered in the class [Collaborators];
    every theorem of the general part holds for all of its instances.  A
    recording test double, [RecordingClient], instantiates the class for the
    concrete runs. *)

From Stdlib Require Import List String ZArith Bool Arith Lia.
Import ListNotations.
Local Open Scope string_scope.
Local Open Scope list_scope.

(** ** JavaScript errors and fallible calls *)

(** A thrown JavaScript [Error]; only its message is observed. *)
Inductive Error : Type :=
| JsError (message : string).

(** [Error('No such document')], the one error the module raises itself. *)
Definition NoSuchDocument : Error := JsError "No such document".

(** A call that returns a value or throws. *)
Inductive Result (A : Type) : Type :=
| Ok (a : A)
| Throw (e : Error).
Arguments Ok {A} a.
Arguments Throw {A} e.

Definition rbind {A B : Type} (m : Result A) (k : A -> Result B) : Result B :=
  match m with
  | Ok a => k a
  | Throw e => Throw e
  end.

Declare Scope result_scope.
Delimit Scope result_scope with result.
Notation "x <- m ;; k" := (rbind m (fun x => k))
  (at level 61, m at next level, right associativity) : result_scope.

(** [for (const x of xs) { acc = f(acc, x) }] where [f] may throw. *)
Fixpoint foldResult {A B : Type} (f : A -> B -> Result A) (xs : list B) (acc : Result A)
  : Result A :=
  match xs with
  | [] => acc
  | x :: rest => foldResult f rest (rbind acc (fun a => f a x))
  end.

(** ** Parsed query components *)

(** A field value as the parser hands it over. *)
Inductive Value : Type :=
| VString (s : string)
| VNumber (n : Z)
| VBool (b : bool)
| VNull.

Definition Value_eq_dec (a b : Value) : {a = b} + {a <> b}.
Proof.
  decide equality; [apply string_dec | apply Z.eq_dec | apply bool_dec].
Defined.

(** The sub-components of a collection expression: [{type: 'where', field,
    operator, value}], [{type: 'limit', limit}], [{type: 'order', field,
    direction}]. *)
Inductive ExpressionComponent : Type :=
| Where (field operator : string) (value : Value)
| Limit (limit : Z)
| Order (field : string) (direction : Value).

(** [ComponentType]: the four component variants of the parser. *)
Inductive Component : Type :=
| Literal (value : string)
| All
| CollectionExpression (components : list ExpressionComponent)
| DocumentExpression (components : list string).

(** [enum QueryType { DOCUMENT, COLLECTION }] *)
Inductive QueryType : Type :=
| DOCUMENT
| COLLECTION.

(** [c.type === ComponentType.LITERAL] *)
Definition isLiteral (c : Component) : bool :=
  match c with
  | Literal _ => true
  | _ => false
  end.

(** [components.filter(c => c.type === LITERAL).length % 2 ? COLLECTION : DOCUMENT] *)
Definition getQueryType (components : list Component) : QueryType :=
  match List.length (filter isLiteral components) mod 2 with
  | 0 => DOCUMENT
  | _ => COLLECTION
  end.

(** The number of components of variant [Literal], counted one by one. *)
Fixpoint literalCount (components : list Component) : nat :=
  match components with
  | [] => 0
  | Literal _ :: rest => S (literalCount rest)
  | _ :: rest => literalCount rest
  end.

(** ** Snapshots and the result model *)

Section Snapshots.
Variable Ref : Type.

(** A [DocumentSnapshot] / [QueryDocumentSnapshot]: [snapshot.exists],
    [snapshot.ref] and the stored fields. *)
Record DocumentSnapshot : Type := {
  snapshotExists : bool;
  ref : Ref;
  data : list (string * Value)
}.

(** What [reference.get()] resolves to and what [onSnapshot] delivers: a
    [DocumentSnapshot] for a document, a [QuerySnapshot] (its documents in
    the order the store returned them) for a collection or query. *)
Inductive Snapshot : Type :=
| DocSnap (snapshot : DocumentSnapshot)
| QuerySnap (docs : list DocumentSnapshot).
End Snapshots.
Arguments snapshotExists {Ref} d.
Arguments ref {Ref} d.
Arguments data {Ref} d.
Arguments DocSnap {Ref} snapshot.
Arguments QuerySnap {Ref} docs.

(** Modelled from the spec: the [QueryResult] class of [./query-result], the
    spec's ResultModel [{documents, projected}], built by
    [new QueryResult(documents, projected)]. *)
Record QueryResult (Document : Type) : Type := {
  documents : list Document;
  projected : bool
}.
Arguments Build_QueryResult {Document} documents projected.
Arguments documents {Document} q.
Arguments projected {Document} q.

(** The direction handed to [orderBy]. *)
Inductive OrderDirection : Type :=
| asc
| desc.

(** ** The collaborators *)

(** The interfaces the module consumes.  [parse] is [FQLParser.parse];
    [getCurrentProject] is [auth.getCurrentProject]; [initializeApp] stands for
    loading the service account and [FirebaseAdmin.initializeApp];
    [firestoreOf] for [FirebaseAdmin.firestore(FirebaseAdmin.app(project))];
    [settings] for [firestore.settings(...)].  [collection], [doc], [where_],
    [limit], [orderBy], [get] and [onSnapshotThrows] are the methods of the
    store client called on a reference (a call on a reference that lacks the
    method throws); [instanceofCollectionReference] is
    [reference instanceof CollectionReference].  [fromDocumentReference] and
    [setData] are the [Document] class of [./document].  A change listener
    is the caller's callback, known by its identity; [listenerThrows l result
    error] is the exception the call [l(result, error)] throws, if it throws
    one. *)
Class Collaborators : Type := {
  Ref : Type;
  Document : Type;
  parse : string -> Result (list Component);
  getCurrentProject : string;
  initializeApp : string -> Result unit;
  firestoreOf : string -> Result Ref;
  settings : Ref -> Result unit;
  collection : Ref -> string -> Result Ref;
  doc : Ref -> string -> Result Ref;
  where_ : Ref -> string -> string -> Value -> Result Ref;
  limit : Ref -> Z -> Result Ref;
  orderBy : Ref -> string -> OrderDirection -> Result Ref;
  instanceofCollectionReference : Ref -> bool;
  get : Ref -> Result (Snapshot Ref);
  onSnapshotThrows : Ref -> option Error;
  fromDocumentReference : Ref -> Document;
  setData : Document -> DocumentSnapshot Ref -> list string -> Document;
  listenerThrows : nat -> option (QueryResult Document) -> option Error -> option Error
}.

Section Engine.
Context {C : Collaborators}.

(** *** Listeners and the process state *)

(** The identity of an [onChangeListener] callback; what a call of it does
    to its caller is [listenerThrows]. *)
Definition Listener : Type := nat.

(** One call [onChangeListener(result, error)]; [None] is [null]. *)
Record Invocation : Type := {
  listener : Listener;
  result : option (QueryResult Document);
  error : option Error
}.

(** The two callbacks handed to [reference.onSnapshot(onNext, onError)].
    Each performs at most one call of the change listener; [onNext] may
    throw instead. *)
Record Callbacks : Type := {
  onNext : Snapshot Ref -> Result Invocation;
  onError : Error -> Invocation
}.

(** An unsubscribe handle, as returned by [onSnapshot]: it names the one
    store listener it detaches. *)
Definition Handle : Type := nat.

(** The module-level variables [unsubscribeListener] (line 9),
    [firebaseAppsInitialized] and [firestore] (lines 80-81), together with
    what the module does to the world around it: the listeners it has
    attached to the store ([attached], with [nextHandle] the next fresh
    handle) and the calls made to change listeners ([invocations], oldest
    first). *)
Record World : Type := {
  unsubscribeListener : option Handle;
  firebaseAppsInitialized : list string;
  firestore : option Ref;
  attached : list (Handle * Callbacks);
  nextHandle : Handle;
  invocations : list Invocation
}.

Definition initialWorld : World :=
  {| unsubscribeListener := None;
     firebaseAppsInitialized := [];
     firestore := None;
     attached := [];
     nextHandle := 0;
     invocations := [] |}.

Definition setUnsubscribeListener (h : Handle) (w : World) : World :=
  {| unsubscribeListener := Some h;
     firebaseAppsInitialized := firebaseAppsInitialized w;
     firestore := firestore w;
     attached := attached w;
     nextHandle := nextHandle w;
     invocations := invocations w |}.

Definition pushInitialized (project : string) (w : World) : World :=
  {| unsubscribeListener := unsubscribeListener w;
     firebaseAppsInitialized := firebaseAppsInitialized w ++ [project];
     firestore := firestore w;
     attached := attached w;
     nextHandle := nextHandle w;
     invocations := invocations w |}.

Definition setFirestore (r : Ref) (w : World) : World :=
  {| unsubscribeListener := unsubscribeListener w;
     firebaseAppsInitialized := firebaseAppsInitialized w;
     firestore := Some r;
     attached := attached w;
     nextHandle := nextHandle w;
     invocations := invocations w |}.

(** The store attaches a listener and hands back a fresh handle. *)
Definition attach (cb : Callbacks) (w : World) : Handle * World :=
  (nextHandle w,
   {| unsubscribeListener := unsubscribeListener w;
      firebaseAppsInitialized := firebaseAppsInitialized w;
      firestore := firestore w;
      attached := attached w ++ [(nextHandle w, cb)];
      nextHandle := S (nextHandle w);
      invocations := invocations w |}).

(** Calling an unsubscribe handle detaches its listener. *)
Definition detach (h : Handle) (w : World) : World :=
  {| unsubscribeListener := unsubscribeListener w;
     firebaseAppsInitialized := firebaseAppsInitialized w;
     firestore := firestore w;
     attached := filter (fun entry => negb (Nat.eqb (fst entry) h)) (attached w);
     nextHandle := nextHandle w;
     invocations := invocations w |}.

(** A change listener is called. *)
Definition invoke (i : Invocation) (w : World) : World :=
  {| unsubscribeListener := unsubscribeListener w;
     firebaseAppsInitialized := firebaseAppsInitialized w;
     firestore := firestore w;
     attached := attached w;
     nextHandle := nextHandle w;
     invocations := invocations w ++ [i] |}.

(** Code that reads and writes the process state and may throw. *)
Definition M (A : Type) : Type := World -> Result A * World.

Definition ret {A : Type} (a : A) : M A := fun w => (Ok a, w).

Definition bind {A B : Type} (m : M A) (k : A -> M B) : M B :=
  fun w =>
    match m w with
    | (Ok a, w') => k a w'
    | (Throw e, w') => (Throw e, w')
    end.

Definition lift {A : Type} (r : Result A) : M A := fun w => (r, w).

Definition modify (f : World -> World) : M unit := fun w => (Ok tt, f w).
End Engine.

Declare Scope m_scope.
Delimit Scope m_scope with m.
Notation "x <~ m ;; k" := (bind m (fun x => k))
  (at level 61, m at next level, right associativity) : m_scope.
Notation "m ;;; k" := (bind m (fun _ => k))
  (at level 61, right associativity) : m_scope.

Section Query.
Context {C : Collaborators}.
Local Open Scope result_scope.
Local Open Scope m_scope.

(** *** The reference builder, [parseQuery] *)

(** Lines 86-98: look up the current project, initialise its Firebase app on
    first use, and fetch its Firestore handle. *)
Definition connect : M Ref :=
  fun w =>
    let currentProject := getCurrentProject in
    ((if existsb (String.eqb currentProject) (firebaseAppsInitialized w)
      then ret tt
      else
        lift (initializeApp currentProject) ;;;
        modify (pushInitialized currentProject) ;;;
        fs <~ lift (firestoreOf currentProject) ;;
        modify (setFirestore fs) ;;;
        lift (settings fs)) ;;;
     fs <~ lift (firestoreOf currentProject) ;;
     modify (setFirestore fs) ;;;
     ret fs) w.

(** The local variables of the loop of [parseQuery]: [reference],
    [collection] (here [collectionFlag], the name [collection] being the
    client's method), [specificProperties] and [documentExpression]. *)
Record BuilderState : Type := {
  reference : Ref;
  collectionFlag : bool;
  specificProperties : list string;
  documentExpression : bool
}.

(** Lines 100-102 and 84: the state before the first component. *)
Definition initialBuilder (root : Ref) : BuilderState :=
  {| reference := root;
     collectionFlag := true;
     specificProperties := [];
     documentExpression := false |}.

(** [expressionComponent.direction === 1 ? 'asc' : 'desc'] *)
Definition directionOf (direction : Value) : OrderDirection :=
  if Value_eq_dec direction (VNumber 1) then asc else desc.

(** Lines 122-135: one sub-component of a collection expression. *)
Definition applyExpression (reference : Ref) (expressionComponent : ExpressionComponent)
  : Result Ref :=
  match expressionComponent with
  | Where field operator value => where_ reference field operator value
  | Limit n => limit reference n
  | Order field direction => orderBy reference field (directionOf direction)
  end.

(** Lines 105-143: the body of the loop, one component. *)
Definition parseComponent (st : BuilderState) (component : Component)
  : Result BuilderState :=
  match component with
  | Literal url =>
      if collectionFlag st then
        r <- collection (reference st) url ;;
        Ok {| reference := r;
              collectionFlag := false;
              specificProperties := specificProperties st;
              documentExpression := documentExpression st |}
      else
        r <- doc (reference st) url ;;
        Ok {| reference := r;
              collectionFlag := true;
              specificProperties := specificProperties st;
              documentExpression := documentExpression st |}
  | All =>
      Ok {| reference := reference st;
            collectionFlag := true;
            specificProperties := specificProperties st;
            documentExpression := documentExpression st |}
  | CollectionExpression components =>
      if instanceofCollectionReference (reference st) then
        r <- foldResult applyExpression components (Ok (reference st)) ;;
        Ok {| reference := r;
              collectionFlag := collectionFlag st;
              specificProperties := specificProperties st;
              documentExpression := documentExpression st |}
      else Ok st
  | DocumentExpression components =>
      Ok {| reference := reference st;
            collectionFlag := collectionFlag st;
            specificProperties := components;
            documentExpression := true |}
  end.

(** Lines 104-144: the loop over the components, from a given state. *)
Definition parseComponents (components : list Component) (st : BuilderState)
  : Result BuilderState :=
  foldResult parseComponent components (Ok st).

(** [parseQuery]: returns [{reference, specificProperties, documentExpression}]. *)
Definition parseQuery (components : list Component) : M (Ref * list string * bool) :=
  root <~ connect ;;
  st <~ lift (parseComponents components (initialBuilder root)) ;;
  ret (reference st, specificProperties st, documentExpression st).

(** *** One-shot execution, [getResult] *)

(** [Document.fromDocumentReference(r)] followed by
    [document.setData(snapshot, specificProperties)]. *)
Definition buildDocument (r : Ref) (snapshot : DocumentSnapshot Ref)
    (specificProperties : list string) : Document :=
  setData (fromDocumentReference r) snapshot specificProperties.

(** Lines 152-173.  A [QuerySnapshot] has no [exists] property, so in
    DOCUMENT mode it reads as a missing document; a [DocumentSnapshot] has no
    [forEach], so in COLLECTION mode the call throws. *)
Definition getResult (queryString : string) (queryType : QueryType) (reference : Ref)
    (specificProperties : list string) : Result (list Document) :=
  let documents : list Document := [] in
  match queryType with
  | DOCUMENT =>
      snapshot <- get reference ;;
      match snapshot with
      | DocSnap s =>
          if snapshotExists s
          then Ok (documents ++ [buildDocument reference s specificProperties])
          else Throw NoSuchDocument
      | QuerySnap _ => Throw NoSuchDocument
      end
  | COLLECTION =>
      snapshot <- get reference ;;
      match snapshot with
      | QuerySnap docs =>
          Ok (fold_left
                (fun documents docSnapshot =>
                   documents ++ [buildDocument (ref docSnapshot) docSnapshot specificProperties])
                docs documents)
      | DocSnap _ => Throw (JsError "snapshot.forEach is not a function")
      end
  end.

(** *** Live subscriptions, [setListener] *)

(** [specificProperties.length > 0] *)
Definition nonEmpty (specificProperties : list string) : bool :=
  Nat.ltb 0 (List.length specificProperties).

(** Lines 38-46: the callbacks of a DOCUMENT-mode subscription. *)
Definition documentCallbacks (specificProperties : list string)
    (onChangeListener : Listener) : Callbacks :=
  {| onNext := fun snapshot =>
       match snapshot with
       | DocSnap s =>
           if snapshotExists s then
             Ok {| listener := onChangeListener;
                   result := Some (Build_QueryResult
                                     [buildDocument (ref s) s specificProperties]
                                     (nonEmpty specificProperties));
                   error := None |}
           else
             Ok {| listener := onChangeListener;
                   result := None;
                   error := Some NoSuchDocument |}
       | QuerySnap _ =>
           Ok {| listener := onChangeListener;
                 result := None;
                 error := Some NoSuchDocument |}
       end;
     onError := fun error =>
       {| listener := onChangeListener; result := None; error := Some error |} |}.

(** Lines 48-58: the callbacks of a COLLECTION-mode subscription. *)
Definition collectionCallbacks (specificProperties : list string)
    (onChangeListener : Listener) : Callbacks :=
  {| onNext := fun snapshot =>
       match snapshot with
       | QuerySnap docs =>
           Ok {| listener := onChangeListener;
                 result := Some (Build_QueryResult
                   (fold_left
                      (fun documents documentSnapshot =>
                         if snapshotExists documentSnapshot
                         then documents ++
                              [buildDocument (ref documentSnapshot) documentSnapshot
                                 specificProperties]
                         else documents)
                      docs [])
                   (nonEmpty specificProperties));
                 error := None |}
       | DocSnap _ => Throw (JsError "snapshot.forEach is not a function")
       end;
     onError := fun error =>
       {| listener := onChangeListener; result := None; error := Some error |} |}.

(** [reference.onSnapshot(onNext, onError)]: throws, or attaches the
    callbacks to the store and returns the unsubscribe handle. *)
Definition onSnapshot (reference : Ref) (cb : Callbacks) : M Handle :=
  fun w =>
    match onSnapshotThrows reference with
    | Some e => (Throw e, w)
    | None => let (h, w') := attach cb w in (Ok h, w')
    end.

(** Lines 36-60. *)
Definition setListener (queryType : QueryType) (reference : Ref)
    (specificProperties : list string) (onChangeListener : Listener) : M unit :=
  match queryType with
  | DOCUMENT =>
      h <~ onSnapshot reference (documentCallbacks specificProperties onChangeListener) ;;
      modify (setUnsubscribeListener h)
  | COLLECTION =>
      h <~ onSnapshot reference (collectionCallbacks specificProperties onChangeListener) ;;
      modify (setUnsubscribeListener h)
  end.

(** *** The entry point, [query] *)

(** How the promise returned by [query] settles; [Resolved None] is a
    promise resolved with [undefined]. *)
Inductive Settled : Type :=
| Resolved (value : option (QueryResult Document))
| Rejected (reason : Error).

(** Lines 20-29: the [try] block. *)
Definition queryBody (queryString : string) (onChangeListener : option Listener)
  : M (option (QueryResult Document)) :=
  queryComponents <~ lift (parse queryString) ;;
  let queryType := getQueryType queryComponents in
  parsed <~ parseQuery queryComponents ;;
  let '(reference, specificProperties, documentExpression) := parsed in
  match onChangeListener with
  | Some l =>
      setListener queryType reference specificProperties l ;;;
      ret None
  | None =>
      result <~ lift (getResult queryString queryType reference specificProperties) ;;
      ret (Some (Build_QueryResult result documentExpression))
  end.

(** Lines 18-34: [query], with its [catch] block.  The block first calls
    the listener, if there is one, with [(null, e)], then returns
    [Promise.reject(e)]; when the call of the listener throws, the block is
    left at once and the promise is rejected with what the listener threw. *)
Definition query (queryString : string) (onChangeListener : option Listener)
  : World -> Settled * World :=
  fun w =>
    match queryBody queryString onChangeListener w with
    | (Ok value, w') => (Resolved value, w')
    | (Throw e, w') =>
        match onChangeListener with
        | Some l =>
            (Rejected match listenerThrows l None (Some e) with
                      | Some thrown => thrown
                      | None => e
                      end,
             invoke {| listener := l; result := None; error := Some e |} w')
        | None => (Rejected e, w')
        end
    end.

(** *** What happens around the module *)

(** What the store sends to an attached listener. *)
Inductive Notification : Type :=
| Next (snapshot : Snapshot Ref)
| Failed (error : Error).

Fixpoint lookupHandle (h : Handle) (entries : list (Handle * Callbacks))
  : option Callbacks :=
  match entries with
  | [] => None
  | (h', cb) :: rest => if Nat.eqb h' h then Some cb else lookupHandle h rest
  end.

(** The store notifies the listener attached under [h], if there is one.  A
    callback that throws calls nobody.  The call of the change listener is the
    last thing a callback does, so an exception of the listener leaves the
    module for the store client with the call made. *)
Definition notify (h : Handle) (n : Notification) (w : World) : World :=
  match lookupHandle h (attached w) with
  | None => w
  | Some cb =>
      match n with
      | Next snapshot =>
          match onNext cb snapshot with
          | Ok i => invoke i w
          | Throw _ => w
          end
      | Failed e => invoke (onError cb e) w
      end
  end.

(** A caller cancels through the exported slot: [unsubscribeListener()]. *)
Definition cancel (w : World) : World :=
  match unsubscribeListener w with
  | Some h => detach h w
  | None => w
  end.

(** Everything that can happen to the process: a call of [query], a
    cancellation through the slot, a notification from the store. *)
Inductive Action : Type :=
| CallQuery (queryString : string) (onChangeListener : option Listener)
| Cancel
| Notify (h : Handle) (n : Notification).

Definition step (w : World) (a : Action) : World :=
  match a with
  | CallQuery queryString onChangeListener => snd (query queryString onChangeListener w)
  | Cancel => cancel w
  | Notify h n => notify h n w
  end.

Definition run (actions : list Action) (w : World) : World :=
  fold_left step actions w.
End Query.

(** ** A recording store client

    A test double for the collaborators.  Its references record the calls
    that built them; a method exists on a reference exactly where the Firestore
    client has it: [collection] on the Firestore handle and on a document,
    [doc] on the Firestore handle and on a collection, [where] / [limit] /
    [orderBy] on a collection and on a query, [onSnapshot] everywhere but on
    the Firestore handle.  Anything else is the [TypeError] of calling a
    missing method. *)

Inductive RecordedRef : Type :=
| Root
| CollectionRef (parent : RecordedRef) (name : string)
| DocumentRef (parent : RecordedRef) (name : string)
| WhereQuery (source : RecordedRef) (field operator : string) (value : Value)
| LimitQuery (source : RecordedRef) (n : Z)
| OrderByQuery (source : RecordedRef) (field : string) (direction : OrderDirection).

Definition notAFunction (method : string) : Error :=
  JsError ("reference." ++ method ++ " is not a function")%string.

Definition recordedCollection (r : RecordedRef) (name : string) : Result RecordedRef :=
  match r with
  | Root | DocumentRef _ _ => Ok (CollectionRef r name)
  | _ => Throw (notAFunction "collection")
  end.

Definition recordedDoc (r : RecordedRef) (name : string) : Result RecordedRef :=
  match r with
  | Root | CollectionRef _ _ => Ok (DocumentRef r name)
  | _ => Throw (notAFunction "doc")
  end.

Definition isQueryable (r : RecordedRef) : bool :=
  match r with
  | Root | DocumentRef _ _ => false
  | _ => true
  end.

Definition recordedWhere (r : RecordedRef) (field operator : string) (value : Value)
  : Result RecordedRef :=
  if isQueryable r then Ok (WhereQuery r field operator value)
  else Throw (notAFunction "where").

Definition recordedLimit (r : RecordedRef) (n : Z) : Result RecordedRef :=
  if isQueryable r then Ok (LimitQuery r n) else Throw (notAFunction "limit").

Definition recordedOrderBy (r : RecordedRef) (field : string) (d : OrderDirection)
  : Result RecordedRef :=
  if isQueryable r then Ok (OrderByQuery r field d) else Throw (notAFunction "orderBy").

Definition recordedIsCollection (r : RecordedRef) : bool :=
  match r with
  | CollectionRef _ _ => true
  | _ => false
  end.

(** A refinement call as the store client receives it. *)
Inductive Refinement : Type :=
| WhereCall (field operator : string) (value : Value)
| LimitCall (n : Z)
| OrderByCall (field : string) (direction : OrderDirection).

(** The refinement calls recorded in a reference, first call first. *)
Fixpoint refinements (r : RecordedRef) : list Refinement :=
  match r with
  | WhereQuery source field operator value =>
      refinements source ++ [WhereCall field operator value]
  | LimitQuery source n => refinements source ++ [LimitCall n]
  | OrderByQuery source field d => refinements source ++ [OrderByCall field d]
  | _ => []
  end.

(** The navigated path recorded in a reference, outermost segment first. *)
Fixpoint path (r : RecordedRef) : list string :=
  match r with
  | Root => []
  | CollectionRef parent name | DocumentRef parent name => path parent ++ [name]
  | WhereQuery source _ _ _ | LimitQuery source _ | OrderByQuery source _ _ => path source
  end.

(** Modelled from the spec: the [Document] class of [./document], a document
    bound to a location, with the copied fields and [metadata.exists]. *)
Record RecordedDocument : Type := {
  location : RecordedRef;
  documentData : list (string * Value);
  metadataExists : bool
}.

(** Modelled from the spec: [Document.fromDocumentReference] of [./document],
    which creates an entity bound to a location but without data. *)
Definition recordedFromDocumentReference (r : RecordedRef) : RecordedDocument :=
  {| location := r; documentData := []; metadataExists := false |}.

(** Modelled from the spec: [Document.setData] of [./document], which copies
    only the listed fields when a projection is given, all fields otherwise,
    and sets [metadata.exists] from the snapshot. *)
Definition recordedSetData (d : RecordedDocument) (snapshot : DocumentSnapshot RecordedRef)
    (specificProperties : list string) : RecordedDocument :=
  {| location := location d;
     documentData :=
       match specificProperties with
       | [] => data snapshot
       | _ => filter (fun kv => existsb (String.eqb (fst kv)) specificProperties)
                (data snapshot)
       end;
     metadataExists := snapshotExists snapshot |}.

(** The double: the parser answers [parser], the store answers [store] to
    [get]; the current project is always ["demo"] and its app initialises;
    its change listeners always return. *)
Definition RecordingClient
    (parser : string -> Result (list Component))
    (store : RecordedRef -> Result (Snapshot RecordedRef)) : Collaborators :=
  {| Ref := RecordedRef;
     Document := RecordedDocument;
     parse := parser;
     getCurrentProject := "demo";
     initializeApp := fun _ => Ok tt;
     firestoreOf := fun _ => Ok Root;
     settings := fun _ => Ok tt;
     collection := recordedCollection;
     doc := recordedDoc;
     where_ := recordedWhere;
     limit := recordedLimit;
     orderBy := recordedOrderBy;
     instanceofCollectionReference := recordedIsCollection;
     get := store;
     onSnapshotThrows := fun r =>
       match r with
       | Root => Some (notAFunction "onSnapshot")
       | _ => None
       end;
     fromDocumentReference := recordedFromDocumentReference;
     setData := recordedSetData;
     listenerThrows := fun _ _ _ => None |}.

(** A parser double that answers every query string with [components]. *)
Definition parsesTo (components : list Component) : string -> Result (list Component) :=
  fun _ => Ok components.

(** A store double with nothing to fetch. *)
Definition emptyStore : RecordedRef -> Result (Snapshot RecordedRef) :=
  fun _ => Throw (JsError "unavailable").

(** The double with a parser that finds no component and an empty store, for
    runs of the reference builder alone. *)
Definition plainClient : Collaborators := RecordingClient (parsesTo []) emptyStore.

(** A store double in which no document exists. *)
Definition missingStore : RecordedRef -> Result (Snapshot RecordedRef) :=
  fun r => Ok (DocSnap {| snapshotExists := false; ref := r; data := [] |}).

(** The fields of the sample document. *)
Definition sampleData : list (string * Value) :=
  [("name", VString "A"); ("age", VNumber 3); ("email", VString "x")].

Definition sampleSnapshot (r : RecordedRef) : DocumentSnapshot RecordedRef :=
  {| snapshotExists := true; ref := r; data := sampleData |}.

(** A store double in which every document exists and holds [sampleData]. *)
Definition documentStore : RecordedRef -> Result (Snapshot RecordedRef) :=
  fun r => Ok (DocSnap (sampleSnapshot r)).

(** A store double in which every collection holds [docB] then [docA]. *)
Definition collectionStore : RecordedRef -> Result (Snapshot RecordedRef) :=
  fun r => Ok (QuerySnap [sampleSnapshot (DocumentRef r "docB");
                          sampleSnapshot (DocumentRef r "docA")]).

(** The document [users/abc] is asked for and does not exist. *)
Definition missingClient : Collaborators :=
  RecordingClient (parsesTo [Literal "users"; Literal "abc"]) missingStore.

(** The fields [name] and [age] of the document [users/abc]. *)
Definition documentClient : Collaborators :=
  RecordingClient
    (parsesTo [Literal "users"; Literal "abc"; DocumentExpression ["name"; "age"]])
    documentStore.

(** The collection [users]. *)
Definition collectionClient : Collaborators :=
  RecordingClient (parsesTo [Literal "users"]) collectionStore.

(** The document [users/abc] with an empty projection. *)
Definition emptyProjectionClient : Collaborators :=
  RecordingClient
    (parsesTo [Literal "users"; Literal "abc"; DocumentExpression []])
    documentStore.

(** The collection [users] with an empty projection followed by a projection
    on [name]. *)
Definition twoProjectionsClient : Collaborators :=
  RecordingClient
    (parsesTo [Literal "users"; DocumentExpression []; DocumentExpression ["name"]])
    collectionStore.

(** ** Vocabulary of the statements *)

(** The store call a sub-component stands for: [where] with its field,
    operator and value, [limit] with its limit, [orderBy] with its field,
    ascending for direction [1] and descending for every other direction. *)
Definition refinementOf (expressionComponent : ExpressionComponent) : Refinement :=
  match expressionComponent with
  | Where field operator value => WhereCall field operator value
  | Limit n => LimitCall n
  | Order field (VNumber 1%Z) => OrderByCall field asc
  | Order field _ => OrderByCall field desc
  end.

Definition isDocumentExpression (c : Component) : bool :=
  match c with
  | DocumentExpression _ => true
  | _ => false
  end.

(** The field list of the last [DocumentExpression] of a sequence, if any. *)
Fixpoint lastProjection (components : list Component) : option (list string) :=
  match components with
  | [] => None
  | c :: rest =>
      match lastProjection rest with
      | Some fields => Some fields
      | None =>
          match c with
          | DocumentExpression fields => Some fields
          | _ => None
          end
      end
  end.

Section Vocabulary.
Context {C : Collaborators}.
Local Open Scope result_scope.

(** One refinement call made on a reference. *)
Definition callRefinement (r : Ref) (call : Refinement) : Result Ref :=
  match call with
  | WhereCall field operator value => where_ r field operator value
  | LimitCall n => limit r n
  | OrderByCall field direction => orderBy r field direction
  end.

(** The calls of a list made one after the other, each on the reference the
    previous one returned, stopping at the first that throws. *)
Fixpoint callRefinements (calls : list Refinement) (r : Ref) : Result Ref :=
  match calls with
  | [] => Ok r
  | call :: rest => r' <- callRefinement r call ;; callRefinements rest r'
  end.

(** The state of the builder after a navigation step. *)
Definition moved (st : BuilderState) (r : Ref) (collectionNext : bool) : BuilderState :=
  {| reference := r;
     collectionFlag := collectionNext;
     specificProperties := specificProperties st;
     documentExpression := documentExpression st |}.

(** [onChangeListener(null, e)] *)
Definition failure (l : Listener) (e : Error) : Invocation :=
  {| listener := l; result := None; error := Some e |}.

(** What the promise of [query] is rejected with when the [catch] block has
    caught [e] and called the listener [l]: what the listener threw, or [e]
    when the listener returned. *)
Definition rejection (l : Listener) (e : Error) : Error :=
  match listenerThrows l None (Some e) with
  | Some thrown => thrown
  | None => e
  end.

(** [onChangeListener(new QueryResult(documents, projected), null)] *)
Definition success (l : Listener) (documents : list Document) (projected : bool)
  : Invocation :=
  {| listener := l;
     result := Some (Build_QueryResult documents projected);
     error := None |}.

(** The callbacks [setListener] attaches for a query type. *)
Definition callbacksFor (queryType : QueryType) (specificProperties : list string)
    (onChangeListener : Listener) : Callbacks :=
  match queryType with
  | DOCUMENT => documentCallbacks specificProperties onChangeListener
  | COLLECTION => collectionCallbacks specificProperties onChangeListener
  end.

(** The projection list [parseQuery] returns for a sequence. *)
Definition projectionFields (components : list Component) : list string :=
  match lastProjection components with
  | Some fields => fields
  | None => []
  end.

(** Every handle the store has given out is below the next fresh one. *)
Definition wellFormed (w : World) : bool :=
  forallb (fun entry => Nat.ltb (fst entry) (nextHandle w)) (attached w).

(** The subscription attached under [h] with callbacks [cb] is out of reach
    of the slot: it is attached, and the slot holds a younger handle. *)
Definition orphaned (h : Handle) (cb : Callbacks) (w : World) : Prop :=
  lookupHandle h (attached w) = Some cb /\
  h < nextHandle w /\
  exists h', unsubscribeListener w = Some h' /\ h < h'.

(** Two worlds that differ at most in the connection variables. *)
Definition sameListeners (w w' : World) : Prop :=
  unsubscribeListener w' = unsubscribeListener w /\
  attached w' = attached w /\
  nextHandle w' = nextHandle w /\
  invocations w' = invocations w.
End Vocabulary.

(** ** Further vocabulary *)

(** The other query type. *)
Definition otherType (queryType : QueryType) : QueryType :=
  match queryType with
  | DOCUMENT => COLLECTION
  | COLLECTION => DOCUMENT
  end.

Definition isAll (c : Component) : bool :=
  match c with
  | All => true
  | _ => false
  end.

Definition notDocumentExpression (c : Component) : bool :=
  negb (isDocumentExpression c).

(** The values of the [Literal] components of a sequence, in order. *)
Fixpoint literalValues (components : list Component) : list string :=
  match components with
  | [] => []
  | Literal value :: rest => value :: literalValues rest
  | _ :: rest => literalValues rest
  end.

(** The double of [plainClient], except that [firestore.settings] throws. *)
Definition unsettledClient : Collaborators :=
  {| Ref := RecordedRef;
     Document := RecordedDocument;
     parse := parsesTo [Literal "users"];
     getCurrentProject := "demo";
     initializeApp := fun _ => Ok tt;
     firestoreOf := fun _ => Ok Root;
     settings := fun _ => Throw (JsError "settings rejected");
     collection := recordedCollection;
     doc := recordedDoc;
     where_ := recordedWhere;
     limit := recordedLimit;
     orderBy := recordedOrderBy;
     instanceofCollectionReference := recordedIsCollection;
     get := collectionStore;
     onSnapshotThrows := fun _ => None;
     fromDocumentReference := recordedFromDocumentReference;
     setData := recordedSetData;
     listenerThrows := fun _ _ _ => None |}.

(** The double of [plainClient], except that every change listener throws
    when it is told of an error. *)
Definition throwingListenerClient : Collaborators :=
  {| Ref := RecordedRef;
     Document := RecordedDocument;
     parse := parsesTo [];
     getCurrentProject := "demo";
     initializeApp := fun _ => Ok tt;
     firestoreOf := fun _ => Ok Root;
     settings := fun _ => Ok tt;
     collection := recordedCollection;
     doc := recordedDoc;
     where_ := recordedWhere;
     limit := recordedLimit;
     orderBy := recordedOrderBy;
     instanceofCollectionReference := recordedIsCollection;
     get := emptyStore;
     onSnapshotThrows := fun r =>
       match r with
       | Root => Some (notAFunction "onSnapshot")
       | _ => None
       end;
     fromDocumentReference := recordedFromDocumentReference;
     setData := recordedSetData;
     listenerThrows := fun _ _ error =>
       match error with
       | Some _ => Some (JsError "listener failed")
       | None => None
       end |}.

Section FurtherVocabulary.
Context {C : Collaborators}.

(** Two builder states with the same cursor and the same collection flag. *)
Definition sameCursor (a b : BuilderState) : Prop :=
  reference a = reference b /\ collectionFlag a = collectionFlag b.

(** Two runs of the builder that end alike: both throw the same error, or
    both succeed with the same cursor and flag. *)
Definition sameOutcome (a b : Result BuilderState) : Prop :=
  match a, b with
  | Ok st, Ok st' => sameCursor st st'
  | Throw e, Throw e' => e = e'
  | _, _ => False
  end.

(** [Document.fromDocumentReference] and [setData] on each snapshot of a list. *)
Definition buildDocuments (specificProperties : list string)
    (docs : list (DocumentSnapshot Ref)) : list Document :=
  map (fun d => buildDocument (ref d) d specificProperties) docs.
End FurtherVocabulary.

(** * Properties *)

(** ** The component classifier *)

Lemma filter_isLiteral_length (components : list Component) :
  List.length (filter isLiteral components) = literalCount components.
Proof.
  induction components as [| c rest IH]; [reflexivity |].
  destruct c; simpl; rewrite ?IH; reflexivity.
Qed.

Lemma getQueryType_odd (components : list Component) :
  getQueryType components =
  if Nat.odd (literalCount components) then COLLECTION else DOCUMENT.
Proof.
  unfold getQueryType. rewrite filter_isLiteral_length.
  generalize (literalCount components) as n; intro n.
  rewrite <- Nat.bit0_mod, Nat.bit0_odd.
  destruct (Nat.odd n); reflexivity.
Qed.

(** C1: for every component sequence, [getQueryType] answers COLLECTION when
    the number of [Literal] components is odd and DOCUMENT when it is even
    (zero included).  The classifier is a function of the sequence alone and is
    defined on every sequence: it has an answer for each, and that answer is
    one of the two. *)
Theorem getQueryType_parity :
  forall components : list Component,
    (Nat.Odd (literalCount components) -> getQueryType components = COLLECTION) /\
    (Nat.Even (literalCount components) -> getQueryType components = DOCUMENT) /\
    (getQueryType components = COLLECTION \/ getQueryType components = DOCUMENT).
Proof.
  intro components. rewrite getQueryType_odd.
  repeat split.
  - intro H. apply Nat.odd_spec in H. rewrite H. reflexivity.
  - intro H. apply Nat.even_spec in H.
    rewrite <- Nat.negb_even, H. reflexivity.
  - destruct (Nat.odd (literalCount components)); [left | right]; reflexivity.
Qed.

(** ** The reference builder *)

Section ReferenceBuilder.
Context {C : Collaborators}.
Local Open Scope result_scope.

Lemma foldResult_throw {A B : Type} (f : A -> B -> Result A) (xs : list B) (e : Error) :
  foldResult f xs (Throw e) = Throw e.
Proof.
  induction xs as [| x rest IH]; simpl; [reflexivity | exact IH].
Qed.

Lemma foldResult_app {A B : Type} (f : A -> B -> Result A) (xs ys : list B)
    (acc : Result A) :
  foldResult f (xs ++ ys) acc = foldResult f ys (foldResult f xs acc).
Proof.
  revert acc. induction xs as [| x rest IH]; intro acc; simpl; [reflexivity | apply IH].
Qed.

Lemma foldResult_bind {A B : Type} (f : A -> B -> Result A) (xs : list B)
    (acc : Result A) :
  foldResult f xs acc = a <- acc ;; foldResult f xs (Ok a).
Proof.
  destruct acc as [a | e]; simpl; [reflexivity | apply foldResult_throw].
Qed.

Lemma parseComponents_cons (c : Component) (rest : list Component) (st : BuilderState) :
  parseComponents (c :: rest) st = st' <- parseComponent st c ;; parseComponents rest st'.
Proof.
  unfold parseComponents. simpl. apply foldResult_bind.
Qed.

Lemma parseComponents_app (before after : list Component) (st : BuilderState) :
  parseComponents (before ++ after) st =
  st' <- parseComponents before st ;; parseComponents after st'.
Proof.
  unfold parseComponents. rewrite foldResult_app. apply foldResult_bind.
Qed.

Lemma parseComponents_at (before : list Component) (c : Component)
    (after : list Component) (st : BuilderState) :
  parseComponents (before ++ c :: after) st =
  st1 <- parseComponents before st ;;
  st2 <- parseComponent st1 c ;;
  parseComponents after st2.
Proof.
  rewrite parseComponents_app.
  destruct (parseComponents before st) as [st1 | e]; simpl; [| reflexivity].
  apply parseComponents_cons.
Qed.

Lemma parseQuery_connect (components : list Component) (w : World) :
  parseQuery components w =
  match connect w with
  | (Ok root, w') =>
      (st <- parseComponents components (initialBuilder root) ;;
       Ok (reference st, specificProperties st, documentExpression st), w')
  | (Throw e, w') => (Throw e, w')
  end.
Proof.
  unfold parseQuery, bind, lift, ret.
  destruct (connect w) as [[root | e] w']; [| reflexivity].
  destruct (parseComponents components (initialBuilder root)); reflexivity.
Qed.

(** C2: [parseQuery] runs its loop from the Firestore root with the
    collection flag set and takes the components in order.  Wherever a
    [Literal value] stands in the sequence, it calls [collection value] on
    the cursor and clears the flag when the flag was set, and calls
    [doc value] on the cursor and sets the flag otherwise; wherever an [All]
    stands, it sets the flag and leaves the cursor as it is.  A call the
    store client rejects ends the run with that error. *)
Theorem parseQuery_traversal :
  forall (before after : list Component) (value : string) (w : World),
    (forall components,
        parseQuery components w =
        match connect w with
        | (Ok root, w') =>
            (st <- parseComponents components (initialBuilder root) ;;
             Ok (reference st, specificProperties st, documentExpression st), w')
        | (Throw e, w') => (Throw e, w')
        end) /\
    (forall root,
        reference (initialBuilder root) = root /\
        collectionFlag (initialBuilder root) = true) /\
    (forall st0,
        parseComponents (before ++ Literal value :: after) st0 =
        st <- parseComponents before st0 ;;
        if collectionFlag st
        then r <- collection (reference st) value ;;
             parseComponents after (moved st r false)
        else r <- doc (reference st) value ;;
             parseComponents after (moved st r true)) /\
    (forall st0,
        parseComponents (before ++ All :: after) st0 =
        st <- parseComponents before st0 ;;
        parseComponents after (moved st (reference st) true)).
Proof.
  intros before after value w.
  split; [intro components; apply parseQuery_connect |].
  split; [intro root; split; reflexivity |].
  split; intro st0; rewrite parseComponents_at;
    destruct (parseComponents before st0) as [st | e]; simpl; try reflexivity.
  destruct (collectionFlag st).
  - destruct (collection (reference st) value); reflexivity.
  - destruct (doc (reference st) value); reflexivity.
Qed.

(** C6: a [CollectionExpression] met while the cursor is not a
    [CollectionReference] is skipped whole: the step returns the state it was
    given (same cursor, nothing thrown), whatever the sub-components are, and
    the run over the sequence is the run over the sequence without that
    component. *)
Theorem collectionExpression_ignored_off_collection :
  forall (before after : list Component) (expression : list ExpressionComponent)
         (st0 st : BuilderState),
    parseComponents before st0 = Ok st ->
    instanceofCollectionReference (reference st) = false ->
    parseComponent st (CollectionExpression expression) = Ok st /\
    parseComponents (before ++ [CollectionExpression expression]) st0 = Ok st /\
    parseComponents (before ++ CollectionExpression expression :: after) st0 =
    parseComponents (before ++ after) st0.
Proof.
  intros before after expression st0 st Hrun Hkind.
  assert (Hstep : parseComponent st (CollectionExpression expression) = Ok st)
    by (simpl; rewrite Hkind; reflexivity).
  split; [exact Hstep |].
  split.
  - rewrite parseComponents_at, Hrun. simpl. rewrite Hkind. reflexivity.
  - rewrite parseComponents_at, parseComponents_app, Hrun.
    cbn [rbind]. rewrite Hstep. reflexivity.
Qed.

Lemma directionOf_refinementOf (field : string) (direction : Value) :
  refinementOf (Order field direction) = OrderByCall field (directionOf direction).
Proof.
  unfold directionOf.
  destruct (Value_eq_dec direction (VNumber 1)) as [-> | Hne]; [reflexivity |].
  destruct direction as [s | n | b |]; try reflexivity.
  destruct n as [| p | p]; try reflexivity.
  destruct p; try reflexivity. congruence.
Qed.

Lemma applyExpression_call (r : Ref) (expressionComponent : ExpressionComponent) :
  applyExpression r expressionComponent =
  callRefinement r (refinementOf expressionComponent).
Proof.
  destruct expressionComponent as [f o v | n | f d]; try reflexivity.
  rewrite directionOf_refinementOf. reflexivity.
Qed.

Lemma foldResult_applyExpression (expression : list ExpressionComponent) (r : Ref) :
  foldResult applyExpression expression (Ok r) =
  callRefinements (map refinementOf expression) r.
Proof.
  revert r. induction expression as [| x rest IH]; intro r; [reflexivity |].
  simpl. rewrite foldResult_bind, applyExpression_call.
  destruct (callRefinement r (refinementOf x)) as [r' | e]; simpl; [apply IH | reflexivity].
Qed.

(** C7: a [CollectionExpression] met while the cursor is a
    [CollectionReference] makes one store call per sub-component, in the
    order listed, each on the reference the previous call returned, none
    dropped, merged or moved: [where] with the field, operator and value,
    [limit] with the limit, [orderBy] with the field and the direction
    ascending when the direction is [1], descending for every other
    direction.  The cursor becomes the reference the last call returned. *)
Theorem collectionExpression_applied_in_order :
  forall (st : BuilderState) (expression : list ExpressionComponent),
    instanceofCollectionReference (reference st) = true ->
    parseComponent st (CollectionExpression expression) =
      (r <- callRefinements (map refinementOf expression) (reference st) ;;
       Ok (moved st r (collectionFlag st))) /\
    (forall field operator value,
        refinementOf (Where field operator value) = WhereCall field operator value) /\
    (forall n, refinementOf (Limit n) = LimitCall n) /\
    (forall field direction,
        (direction = VNumber 1 -> refinementOf (Order field direction) = OrderByCall field asc) /\
        (direction <> VNumber 1 -> refinementOf (Order field direction) = OrderByCall field desc)).
Proof.
  intros st expression Hkind.
  split.
  - simpl. rewrite Hkind, foldResult_applyExpression. reflexivity.
  - split; [reflexivity |]. split; [reflexivity |].
    intros field direction. rewrite directionOf_refinementOf. unfold directionOf.
    destruct (Value_eq_dec direction (VNumber 1)); split; intros; congruence.
Qed.
End ReferenceBuilder.

(** On the recording client a collection expression on a collection never
    throws, and the reference it leaves has recorded exactly the calls of the
    sub-components, in their order, after those recorded before. *)
Lemma recorded_refinements_in_order
    (parser : string -> Result (list Component))
    (store : RecordedRef -> Result (Snapshot RecordedRef))
    (expression : list ExpressionComponent) (r : RecordedRef) :
  isQueryable r = true ->
  exists r',
    @callRefinements (RecordingClient parser store) (map refinementOf expression) r = Ok r' /\
    isQueryable r' = true /\
    refinements r' = refinements r ++ map refinementOf expression /\
    path r' = path r.
Proof.
  revert r. induction expression as [| x rest IH]; intros r Hq.
  - exists r. simpl. rewrite app_nil_r. repeat split; assumption.
  - assert (Hcall : exists r1,
               @callRefinement (RecordingClient parser store) r (refinementOf x) = Ok r1 /\
               isQueryable r1 = true /\
               refinements r1 = refinements r ++ [refinementOf x] /\
               path r1 = path r).
    { destruct (refinementOf x) as [f o v | n | f d]; simpl;
        [unfold recordedWhere | unfold recordedLimit | unfold recordedOrderBy];
        rewrite Hq; eexists; repeat split. }
    destruct Hcall as (r1 & Hcall & Hq1 & Hrec & Hpath).
    destruct (IH r1 Hq1) as (r' & Hrest & Hq' & Hrec' & Hpath').
    exists r'. cbn [map callRefinements]. rewrite Hcall. cbn [rbind].
    repeat split; try assumption.
    + rewrite Hrec', Hrec, <- app_assoc. reflexivity.
    + congruence.
Qed.

(** [users/abc] is a document, so the expression after it is skipped. *)
Lemma collectionExpression_ignored_witness :
  let st := @Build_BuilderState plainClient
              (DocumentRef (CollectionRef Root "users") "abc") true [] false in
  @parseComponents plainClient
    ([Literal "users"; Literal "abc"] ++
     CollectionExpression [Limit 5; Where "age" ">" (VNumber 3)] ::
     [DocumentExpression ["name"]]) (@initialBuilder plainClient Root) =
  @parseComponents plainClient
    ([Literal "users"; Literal "abc"] ++ [DocumentExpression ["name"]])
    (@initialBuilder plainClient Root) /\
  @parseComponent plainClient st
    (CollectionExpression [Limit 5; Where "age" ">" (VNumber 3)]) = Ok st.
Proof.
  intro st.
  destruct (@collectionExpression_ignored_off_collection plainClient
              [Literal "users"; Literal "abc"] [DocumentExpression ["name"]]
              [Limit 5; Where "age" ">" (VNumber 3)] (@initialBuilder plainClient Root) st
              eq_refl eq_refl) as (Hstep & _ & Hrun).
  split; [exact Hrun | exact Hstep].
Defined.

(** On the collection [users], four sub-components make four calls, the
    repeated [limit] included, in the order written. *)
Lemma collectionExpression_applied_witness :
  let st := @Build_BuilderState plainClient (CollectionRef Root "users") false [] false in
  exists r,
    @parseComponent plainClient st
      (CollectionExpression
         [Limit 5; Where "age" ">" (VNumber 3); Order "name" (VNumber 1);
          Order "age" (VString "1"); Limit 5]) = Ok (@moved plainClient st r false) /\
    refinements r =
      [LimitCall 5; WhereCall "age" ">" (VNumber 3); OrderByCall "name" asc;
       OrderByCall "age" desc; LimitCall 5].
Proof.
  intro st.
  destruct (@collectionExpression_applied_in_order plainClient st
              [Limit 5; Where "age" ">" (VNumber 3); Order "name" (VNumber 1);
               Order "age" (VString "1"); Limit 5] eq_refl) as (Hstep & _).
  eexists. split; [rewrite Hstep; reflexivity | reflexivity].
Defined.

(** ** One-shot execution *)

Section OneShot.
Context {C : Collaborators}.

Lemma fold_left_push {A B : Type} (f : A -> B) (xs : list A) (acc : list B) :
  fold_left (fun documents x => documents ++ [f x]) xs acc = acc ++ map f xs.
Proof.
  revert acc. induction xs as [| x rest IH]; intro acc; simpl.
  - symmetry. apply app_nil_r.
  - rewrite IH, <- app_assoc. reflexivity.
Qed.

(** C3: in DOCUMENT mode [getResult] fetches one snapshot.  When the
    snapshot says the document does not exist, the call throws
    [Error('No such document')]; when it says the document exists, the call
    returns exactly one [Document], made from the reference and filled from
    the snapshot with the projection list.  In no case does DOCUMENT mode
    return an empty list. *)
Theorem getResult_document :
  forall (queryString : string) (reference : Ref) (specificProperties : list string)
         (s : DocumentSnapshot Ref),
    get reference = Ok (DocSnap s) ->
    (snapshotExists s = false ->
     getResult queryString DOCUMENT reference specificProperties = Throw NoSuchDocument) /\
    (snapshotExists s = true ->
     getResult queryString DOCUMENT reference specificProperties =
     Ok [setData (fromDocumentReference reference) s specificProperties]) /\
    getResult queryString DOCUMENT reference specificProperties <> Ok [].
Proof.
  intros queryString reference specificProperties s Hget.
  unfold getResult. rewrite Hget. cbn [rbind].
  destruct (snapshotExists s); repeat split; intro H; try discriminate; reflexivity.
Qed.

(** C4: in COLLECTION mode [getResult] returns one [Document] per snapshot
    of the fetched [QuerySnapshot], the i-th document made from the i-th
    snapshot: the list is the image of the store's list, in the store's
    order, with nothing dropped, merged or moved. *)
Theorem getResult_collection_order :
  forall (queryString : string) (reference : Ref) (specificProperties : list string)
         (docs : list (DocumentSnapshot Ref)),
    get reference = Ok (QuerySnap docs) ->
    exists documents : list Document,
      getResult queryString COLLECTION reference specificProperties = Ok documents /\
      documents = map (fun d => setData (fromDocumentReference (ref d)) d specificProperties) docs /\
      List.length documents = List.length docs /\
      forall i : nat,
        nth_error documents i =
        option_map (fun d => setData (fromDocumentReference (ref d)) d specificProperties)
          (nth_error docs i).
Proof.
  intros queryString reference specificProperties docs Hget.
  eexists. split; [| split; [reflexivity | split]].
  - unfold getResult. rewrite Hget. cbn [rbind].
    rewrite (fold_left_push (fun d => buildDocument (ref d) d specificProperties)).
    reflexivity.
  - apply length_map.
  - intro i. apply nth_error_map.
Qed.
End OneShot.

(** ** Live subscriptions *)

Section Live.
Context {C : Collaborators}.

Lemma lookupHandle_app_found (h : Handle) (cb : Callbacks)
    (entries extra : list (Handle * Callbacks)) :
  lookupHandle h entries = Some cb -> lookupHandle h (entries ++ extra) = Some cb.
Proof.
  induction entries as [| [h' cb'] rest IH]; simpl; [discriminate |].
  destruct (Nat.eqb h' h); [trivial | exact IH].
Qed.

Lemma lookupHandle_app_fresh (h : Handle) (cb : Callbacks)
    (entries : list (Handle * Callbacks)) :
  forallb (fun entry => Nat.ltb (fst entry) h) entries = true ->
  lookupHandle h (entries ++ [(h, cb)]) = Some cb.
Proof.
  induction entries as [| [h' cb'] rest IH]; simpl; intro Hall.
  - rewrite Nat.eqb_refl. reflexivity.
  - apply andb_prop in Hall. destruct Hall as [Hlt Hrest].
    apply Nat.ltb_lt in Hlt.
    destruct (Nat.eqb_spec h' h) as [-> | _]; [lia | apply IH, Hrest].
Qed.

Lemma lookupHandle_detach (h other : Handle) (entries : list (Handle * Callbacks)) :
  other <> h ->
  lookupHandle h (filter (fun entry => negb (Nat.eqb (fst entry) other)) entries) =
  lookupHandle h entries.
Proof.
  intro Hne. induction entries as [| [h' cb'] rest IH]; simpl; [reflexivity |].
  destruct (Nat.eqb_spec h' other) as [-> | Hother]; simpl.
  - destruct (Nat.eqb_spec other h) as [Heq | _]; [contradiction | exact IH].
  - destruct (Nat.eqb h' h); [reflexivity | exact IH].
Qed.

Lemma lookupHandle_detached (h : Handle) (entries : list (Handle * Callbacks)) :
  lookupHandle h (filter (fun entry => negb (Nat.eqb (fst entry) h)) entries) = None.
Proof.
  induction entries as [| [h' cb] rest IH]; simpl; [reflexivity |].
  destruct (Nat.eqb_spec h' h) as [-> | Hne]; simpl; [exact IH |].
  destruct (Nat.eqb_spec h' h) as [Heq | _]; [contradiction | exact IH].
Qed.

Lemma lookupHandle_app_other (h h' : Handle) (cb : Callbacks)
    (entries : list (Handle * Callbacks)) :
  h' <> h ->
  lookupHandle h' (entries ++ [(h, cb)]) = lookupHandle h' entries.
Proof.
  intro Hne. induction entries as [| [h0 cb0] rest IH]; simpl.
  - destruct (Nat.eqb_spec h h') as [Heq | _]; [congruence | reflexivity].
  - destruct (Nat.eqb h0 h'); [reflexivity | exact IH].
Qed.

(** What a successful [setListener] leaves behind: the callbacks of the
    query type attached under the fresh handle, and the slot holding that
    handle. *)
Lemma setListener_ok (queryType : QueryType) (reference : Ref)
    (specificProperties : list string) (l : Listener) (w w1 : World) :
  setListener queryType reference specificProperties l w = (Ok tt, w1) ->
  onSnapshotThrows reference = None /\
  w1 = setUnsubscribeListener (nextHandle w)
         (snd (attach (callbacksFor queryType specificProperties l) w)).
Proof.
  unfold setListener, bind, onSnapshot, modify.
  destruct queryType; destruct (onSnapshotThrows reference); simpl;
    intro H; inversion H; split; reflexivity.
Qed.

Lemma setListener_throw (queryType : QueryType) (reference : Ref)
    (specificProperties : list string) (l : Listener) (w w1 : World) (e : Error) :
  setListener queryType reference specificProperties l w = (Throw e, w1) ->
  onSnapshotThrows reference = Some e /\ w1 = w.
Proof.
  unfold setListener, bind, onSnapshot, modify.
  destruct queryType; destruct (onSnapshotThrows reference); simpl;
    intro H; inversion H; split; reflexivity.
Qed.

(** C5: after [setListener] has attached a subscription, every notification
    the store sends to it, in any later state where it is still attached,
    makes exactly one call of the change listener and does nothing else.  In
    DOCUMENT mode a snapshot of a document that does not exist gives
    [onChangeListener(null, Error('No such document'))], a snapshot of one
    that exists gives [onChangeListener(result, null)] with exactly one
    document in the result.  In both modes a transport error [e] gives
    [onChangeListener(null, e)]; nothing is attached anew, so the
    subscription is not retried. *)
Theorem setListener_notifications :
  forall (queryType : QueryType) (reference : Ref) (specificProperties : list string)
         (l : Listener) (w w1 : World),
    wellFormed w = true ->
    setListener queryType reference specificProperties l w = (Ok tt, w1) ->
    exists cb : Callbacks,
      lookupHandle (nextHandle w) (attached w1) = Some cb /\
      forall w2 : World,
        lookupHandle (nextHandle w) (attached w2) = Some cb ->
        (queryType = DOCUMENT ->
         forall s : DocumentSnapshot Ref,
           (snapshotExists s = false ->
            notify (nextHandle w) (Next (DocSnap s)) w2 =
            invoke (failure l NoSuchDocument) w2) /\
           (snapshotExists s = true ->
            notify (nextHandle w) (Next (DocSnap s)) w2 =
            invoke (success l [setData (fromDocumentReference (ref s)) s specificProperties]
                      (nonEmpty specificProperties)) w2)) /\
        (forall e : Error,
            notify (nextHandle w) (Failed e) w2 = invoke (failure l e) w2 /\
            invocations (notify (nextHandle w) (Failed e) w2) =
              invocations w2 ++ [failure l e] /\
            attached (notify (nextHandle w) (Failed e) w2) = attached w2 /\
            nextHandle (notify (nextHandle w) (Failed e) w2) = nextHandle w2 /\
            unsubscribeListener (notify (nextHandle w) (Failed e) w2) =
              unsubscribeListener w2).
Proof.
  intros queryType reference specificProperties l w w1 Hwf Hset.
  apply setListener_ok in Hset. destruct Hset as [_ ->].
  exists (callbacksFor queryType specificProperties l).
  split; [simpl; apply lookupHandle_app_fresh, Hwf |].
  intros w2 Hattached. split.
  - intros -> s. unfold notify. rewrite Hattached. simpl.
    split; intros ->; reflexivity.
  - intro e. unfold notify. rewrite Hattached.
    destruct queryType; repeat split; reflexivity.
Qed.
End Live.

(** ** The entry point *)

Section EntryPoint.
Context {C : Collaborators}.

Lemma sameListeners_refl (w : World) : sameListeners w w.
Proof. repeat split. Qed.

Lemma sameListeners_trans (w1 w2 w3 : World) :
  sameListeners w1 w2 -> sameListeners w2 w3 -> sameListeners w1 w3.
Proof.
  unfold sameListeners. intros (A1 & A2 & A3 & A4) (B1 & B2 & B3 & B4).
  repeat split; congruence.
Qed.

Lemma connect_sameListeners (w w' : World) (r : Result Ref) :
  connect w = (r, w') -> sameListeners w w'.
Proof.
  unfold connect, bind, lift, modify, ret.
  destruct (existsb (String.eqb getCurrentProject) (firebaseAppsInitialized w)).
  - destruct (firestoreOf getCurrentProject); intro H; inversion H; repeat split.
  - destruct (initializeApp getCurrentProject);
      [| intro H; inversion H; repeat split].
    destruct (firestoreOf getCurrentProject) as [fs | e];
      [| intro H; inversion H; repeat split].
    destruct (settings fs); intro H; inversion H; repeat split.
Qed.

Lemma parseQuery_sameListeners (components : list Component) (w w' : World)
    (r : Result (Ref * list string * bool)) :
  parseQuery components w = (r, w') -> sameListeners w w'.
Proof.
  rewrite parseQuery_connect.
  destruct (connect w) as [[root | e] w1] eqn:Hconnect; intro H; inversion H; subst;
    eapply connect_sameListeners; eassumption.
Qed.

Lemma parseQuery_ok (components : list Component) (w w' : World)
    (r : Ref) (fields : list string) (seen : bool) :
  parseQuery components w = (Ok (r, fields, seen), w') ->
  exists root st,
    connect w = (Ok root, w') /\
    parseComponents components (initialBuilder root) = Ok st /\
    r = reference st /\ fields = specificProperties st /\ seen = documentExpression st.
Proof.
  rewrite parseQuery_connect.
  destruct (connect w) as [[root | e] w1]; [| discriminate].
  destruct (parseComponents components (initialBuilder root)) as [st | e] eqn:Hrun;
    simpl; [| discriminate].
  intro H. inversion H; subst. exists root, st. repeat split. exact Hrun.
Qed.

Lemma parseComponent_projection (st st1 : BuilderState) (c : Component) :
  parseComponent st c = Ok st1 ->
  match c with
  | DocumentExpression fields =>
      specificProperties st1 = fields /\ documentExpression st1 = true
  | _ =>
      specificProperties st1 = specificProperties st /\
      documentExpression st1 = documentExpression st
  end.
Proof.
  destruct c as [url | | expression | fields]; simpl.
  - destruct (collectionFlag st);
      [destruct (collection (reference st) url) | destruct (doc (reference st) url)];
      simpl; intro H; inversion H; split; reflexivity.
  - intro H; inversion H; split; reflexivity.
  - destruct (instanceofCollectionReference (reference st)).
    + destruct (foldResult applyExpression expression (Ok (reference st)));
        simpl; intro H; inversion H; split; reflexivity.
    + intro H; inversion H; split; reflexivity.
  - intro H; inversion H; split; reflexivity.
Qed.

(** What the loop returns as projection: the field list of the last
    [DocumentExpression], and whether there was one. *)
Lemma parseComponents_projection (components : list Component) (st st' : BuilderState) :
  parseComponents components st = Ok st' ->
  specificProperties st' =
    match lastProjection components with
    | Some fields => fields
    | None => specificProperties st
    end /\
  documentExpression st' =
    (documentExpression st || existsb isDocumentExpression components)%bool.
Proof.
  revert st. induction components as [| c rest IH]; intros st Hrun.
  - inversion Hrun. simpl. rewrite orb_false_r. split; reflexivity.
  - rewrite parseComponents_cons in Hrun.
    destruct (parseComponent st c) as [st1 | e] eqn:Hstep; [| discriminate].
    simpl in Hrun. apply IH in Hrun. destruct Hrun as [Hfields Hseen].
    apply parseComponent_projection in Hstep.
    simpl. rewrite Hfields, Hseen.
    destruct (lastProjection rest) as [fields |];
      destruct c; simpl; destruct Hstep as [H1 H2];
      rewrite ?H1, ?H2, ?orb_true_r, ?orb_true_l; split; reflexivity.
Qed.

Lemma lastProjection_In (components : list Component) (fields : list string) :
  lastProjection components = Some fields -> In (DocumentExpression fields) components.
Proof.
  induction components as [| c rest IH]; simpl; [discriminate |].
  destruct (lastProjection rest) as [found |].
  - intro H. right. apply IH. exact H.
  - destruct c; try discriminate. intro H. inversion H. left. reflexivity.
Qed.

Lemma existsb_isDocumentExpression (components : list Component) :
  existsb isDocumentExpression components = true <->
  exists fields, In (DocumentExpression fields) components.
Proof.
  rewrite existsb_exists. split.
  - intros (c & Hin & Hc). destruct c; try discriminate. eexists. exact Hin.
  - intros (fields & Hin). exists (DocumentExpression fields). split; [exact Hin | reflexivity].
Qed.

Lemma queryBody_unfold (queryString : string) (onChangeListener : option Listener)
    (w : World) :
  queryBody queryString onChangeListener w =
  match parse queryString with
  | Throw e => (Throw e, w)
  | Ok components =>
      match parseQuery components w with
      | (Throw e, w1) => (Throw e, w1)
      | (Ok (reference, fields, seen), w1) =>
          match onChangeListener with
          | Some l =>
              match setListener (getQueryType components) reference fields l w1 with
              | (Ok _, w2) => (Ok None, w2)
              | (Throw e, w2) => (Throw e, w2)
              end
          | None =>
              match getResult queryString (getQueryType components) reference fields with
              | Ok documents => (Ok (Some (Build_QueryResult documents seen)), w1)
              | Throw e => (Throw e, w1)
              end
          end
      end
  end.
Proof.
  unfold queryBody, bind, lift, ret.
  destruct (parse queryString) as [components | e]; [| reflexivity].
  destruct (parseQuery components w) as [[[[reference fields] seen] | e] w1];
    [| reflexivity].
  destruct onChangeListener as [l |].
  - destruct (setListener (getQueryType components) reference fields l w1)
      as [[[] | e] w2]; reflexivity.
  - destruct (getResult queryString (getQueryType components) reference fields);
      reflexivity.
Qed.

(** C10, in the form the code satisfies: with a change listener given, an
    error [e] thrown by the parser, by [parseQuery] or by the registration of
    the listener is reported twice.  The listener is called with [(null, e)],
    and the promise of [query] is rejected: with the same [e] when that call of
    the listener returns, with what the listener threw when it throws.  (The
    classifier cannot throw.)  Conversely a rejected live call always ends
    with that call of the listener. *)
Theorem query_failure_two_channels :
  forall (queryString : string) (l : Listener) (w : World) (e : Error),
    (parse queryString = Throw e ->
     query queryString (Some l) w = (Rejected (rejection l e), invoke (failure l e) w)) /\
    (forall components w1,
        parse queryString = Ok components ->
        parseQuery components w = (Throw e, w1) ->
        query queryString (Some l) w = (Rejected (rejection l e), invoke (failure l e) w1)) /\
    (forall components reference fields seen w1 w2,
        parse queryString = Ok components ->
        parseQuery components w = (Ok (reference, fields, seen), w1) ->
        setListener (getQueryType components) reference fields l w1 = (Throw e, w2) ->
        query queryString (Some l) w = (Rejected (rejection l e), invoke (failure l e) w2)) /\
    (listenerThrows l None (Some e) = None -> rejection l e = e) /\
    (forall thrown,
        listenerThrows l None (Some e) = Some thrown -> rejection l e = thrown) /\
    (forall reason w',
        query queryString (Some l) w = (Rejected reason, w') ->
        exists caught w2,
          queryBody queryString (Some l) w = (Throw caught, w2) /\
          w' = invoke (failure l caught) w2 /\
          reason = rejection l caught /\
          invocations w' = invocations w ++ [failure l caught]).
Proof.
  intros queryString l w e. unfold query.
  split; [| split; [| split; [| split; [| split]]]].
  - intro Hparse. rewrite queryBody_unfold, Hparse. reflexivity.
  - intros components w1 Hparse Hbuild.
    rewrite queryBody_unfold, Hparse, Hbuild. reflexivity.
  - intros components reference fields seen w1 w2 Hparse Hbuild Hset.
    rewrite queryBody_unfold, Hparse, Hbuild, Hset. reflexivity.
  - intro Hreturns. unfold rejection. rewrite Hreturns. reflexivity.
  - intros thrown Hthrows. unfold rejection. rewrite Hthrows. reflexivity.
  - intros reason w' H.
    destruct (queryBody queryString (Some l) w) as [[v | caught] w2] eqn:Hbody;
      inversion H; subst.
    exists caught, w2.
    split; [reflexivity | split; [reflexivity | split; [reflexivity |]]].
    simpl. f_equal.
    rewrite queryBody_unfold in Hbody.
    destruct (parse queryString) as [components | e0]; [| inversion Hbody; reflexivity].
    destruct (parseQuery components w) as [[[[reference fields] seen] | e0] w1]
      eqn:Hbuild.
    + apply parseQuery_sameListeners in Hbuild. destruct Hbuild as (_ & _ & _ & Hinv).
      destruct (setListener (getQueryType components) reference fields l w1)
        as [[[] | e0] w3] eqn:Hset; [discriminate |].
      apply setListener_throw in Hset. destruct Hset as [_ ->].
      inversion Hbody; subst. exact Hinv.
    + apply parseQuery_sameListeners in Hbuild. destruct Hbuild as (_ & _ & _ & Hinv).
      inversion Hbody; subst. exact Hinv.
Qed.
End EntryPoint.

(** ** The projected flag and the unsubscribe slot *)

Section Process.
Context {C : Collaborators}.

Lemma nonEmpty_true (fields : list string) : nonEmpty fields = true <-> fields <> [].
Proof.
  destruct fields; unfold nonEmpty; simpl; split; intro H;
    try discriminate; try reflexivity; contradiction.
Qed.

Lemma callbacks_projected (queryType : QueryType) (fields : list string) (l : Listener)
    (snapshot : Snapshot Ref) (i : Invocation) (qr : QueryResult Document) :
  onNext (callbacksFor queryType fields l) snapshot = Ok i ->
  result i = Some qr ->
  projected qr = nonEmpty fields.
Proof.
  destruct queryType; destruct snapshot as [s | docs]; simpl;
    try destruct (snapshotExists s); intro H; inversion H; subst; simpl;
    intro Hr; inversion Hr; reflexivity.
Qed.

(** A live call of [query] that resolves has attached the callbacks of its
    query type under the next fresh handle and stored that handle in the
    slot. *)
Lemma query_live_resolved (queryString : string) (l : Listener) (w w' : World)
    (v : option (QueryResult Document)) :
  query queryString (Some l) w = (Resolved v, w') ->
  exists components,
    parse queryString = Ok components /\
    v = None /\
    unsubscribeListener w' = Some (nextHandle w) /\
    attached w' =
      attached w ++
      [(nextHandle w, callbacksFor (getQueryType components) (projectionFields components) l)] /\
    nextHandle w' = S (nextHandle w) /\
    invocations w' = invocations w.
Proof.
  unfold query. rewrite queryBody_unfold.
  destruct (parse queryString) as [components | e]; [| discriminate].
  destruct (parseQuery components w) as [[[[reference fields] seen] | e] w1] eqn:Hbuild;
    [| discriminate].
  destruct (setListener (getQueryType components) reference fields l w1)
    as [[[] | e] w2] eqn:Hset; [| discriminate].
  intro H. inversion H; subst.
  apply setListener_ok in Hset. destruct Hset as [_ ->].
  pose proof (parseQuery_sameListeners _ _ _ _ Hbuild) as (_ & Hatt & Hnext & Hinv).
  apply parseQuery_ok in Hbuild.
  destruct Hbuild as (root & st & _ & Hrun & _ & -> & _).
  apply parseComponents_projection in Hrun. destruct Hrun as [Hfields _].
  exists components. unfold projectionFields. simpl in Hfields. simpl.
  rewrite Hatt, Hnext, Hinv, Hfields.
  repeat split; destruct (lastProjection components); reflexivity.
Qed.

(** A one-shot call of [query] that resolves carries the
    [documentExpression] flag of the loop. *)
Lemma query_once_resolved (queryString : string) (w w' : World)
    (qr : QueryResult Document) (components : list Component) :
  parse queryString = Ok components ->
  query queryString None w = (Resolved (Some qr), w') ->
  projected qr = existsb isDocumentExpression components.
Proof.
  intro Hparse. unfold query. rewrite queryBody_unfold, Hparse.
  destruct (parseQuery components w) as [[[[reference fields] seen] | e] w1] eqn:Hbuild;
    [| discriminate].
  destruct (getResult queryString (getQueryType components) reference fields);
    [| discriminate].
  intro H. inversion H; subst. simpl.
  apply parseQuery_ok in Hbuild.
  destruct Hbuild as (root & st & _ & Hrun & _ & _ & ->).
  apply parseComponents_projection in Hrun. destruct Hrun as [_ Hseen].
  exact Hseen.
Qed.

(** C9, in the form the code satisfies: the two modes compute the [projected] flag
    differently.  A one-shot result is projected exactly when the sequence
    holds a [DocumentExpression], whatever its field list; a live result is
    projected exactly when the projection list, the field list of the last
    [DocumentExpression], is not empty.  So when the last
    [DocumentExpression] of a query has an empty field list, the one-shot
    result is projected and no live result is. *)
Theorem projected_flag_by_mode :
  forall (queryString : string) (components : list Component) (w : World),
    parse queryString = Ok components ->
    (forall qr w',
        query queryString None w = (Resolved (Some qr), w') ->
        (projected qr = true <-> exists fields, In (DocumentExpression fields) components)) /\
    (forall l v w',
        query queryString (Some l) w = (Resolved v, w') ->
        exists cb,
          attached w' = attached w ++ [(nextHandle w, cb)] /\
          forall snapshot i qr,
            onNext cb snapshot = Ok i -> result i = Some qr ->
            (projected qr = true <-> projectionFields components <> [])) /\
    (lastProjection components = Some [] ->
     In (DocumentExpression []) components /\
     (forall qr w',
         query queryString None w = (Resolved (Some qr), w') -> projected qr = true) /\
     (forall l v w',
         query queryString (Some l) w = (Resolved v, w') ->
         exists cb,
           attached w' = attached w ++ [(nextHandle w, cb)] /\
           forall snapshot i qr,
             onNext cb snapshot = Ok i -> result i = Some qr -> projected qr = false)).
Proof.
  intros queryString components w Hparse.
  assert (Honce : forall qr w',
             query queryString None w = (Resolved (Some qr), w') ->
             projected qr = existsb isDocumentExpression components)
    by (intros qr w'; apply query_once_resolved, Hparse).
  assert (Hlive : forall l v w',
             query queryString (Some l) w = (Resolved v, w') ->
             exists cb,
               attached w' = attached w ++ [(nextHandle w, cb)] /\
               forall snapshot i qr,
                 onNext cb snapshot = Ok i -> result i = Some qr ->
                 projected qr = nonEmpty (projectionFields components)).
  { intros l v w' Hq. apply query_live_resolved in Hq.
    destruct Hq as (components' & Hparse' & _ & _ & Hatt & _).
    rewrite Hparse in Hparse'. inversion Hparse'; subst components'.
    eexists. split; [exact Hatt |].
    intros snapshot i qr. apply callbacks_projected. }
  split; [| split].
  - intros qr w' Hq. rewrite (Honce qr w' Hq). apply existsb_isDocumentExpression.
  - intros l v w' Hq. destruct (Hlive l v w' Hq) as (cb & Hatt & Hcb).
    exists cb. split; [exact Hatt |].
    intros snapshot i qr Hnext Hres. rewrite (Hcb snapshot i qr Hnext Hres).
    apply nonEmpty_true.
  - intro Hlast. pose proof (lastProjection_In _ _ Hlast) as Hin.
    split; [exact Hin | split].
    + intros qr w' Hq. rewrite (Honce qr w' Hq).
      apply existsb_isDocumentExpression. eexists. exact Hin.
    + intros l v w' Hq. destruct (Hlive l v w' Hq) as (cb & Hatt & Hcb).
      exists cb. split; [exact Hatt |].
      intros snapshot i qr Hnext Hres. rewrite (Hcb snapshot i qr Hnext Hres).
      unfold projectionFields. rewrite Hlast. reflexivity.
Qed.

Lemma callbacks_listener (queryType : QueryType) (fields : list string) (l : Listener) :
  (forall snapshot i,
      onNext (callbacksFor queryType fields l) snapshot = Ok i -> listener i = l) /\
  (forall e, onError (callbacksFor queryType fields l) e = failure l e).
Proof.
  split.
  - intros snapshot i.
    destruct queryType; destruct snapshot as [s | docs]; simpl;
      try destruct (snapshotExists s); intro H; inversion H; reflexivity.
  - intro e. destruct queryType; reflexivity.
Qed.

Lemma queryBody_once_sameListeners (queryString : string) (w w' : World)
    (r : Result (option (QueryResult Document))) :
  queryBody queryString None w = (r, w') -> sameListeners w w'.
Proof.
  rewrite queryBody_unfold.
  destruct (parse queryString) as [components | e];
    [| intro H; inversion H; apply sameListeners_refl].
  destruct (parseQuery components w) as [[[[reference fields] seen] | e] w1] eqn:Hbuild;
    apply parseQuery_sameListeners in Hbuild.
  - destruct (getResult queryString (getQueryType components) reference fields);
      intro H; inversion H; subst; exact Hbuild.
  - intro H; inversion H; subst; exact Hbuild.
Qed.

Lemma queryBody_throw_sameListeners (queryString : string) (l : Listener)
    (w w' : World) (e : Error) :
  queryBody queryString (Some l) w = (Throw e, w') -> sameListeners w w'.
Proof.
  rewrite queryBody_unfold.
  destruct (parse queryString) as [components | e0];
    [| intro H; inversion H; apply sameListeners_refl].
  destruct (parseQuery components w) as [[[[reference fields] seen] | e0] w1] eqn:Hbuild;
    apply parseQuery_sameListeners in Hbuild.
  - destruct (setListener (getQueryType components) reference fields l w1)
      as [[[] | e1] w2] eqn:Hset; [discriminate |].
    apply setListener_throw in Hset. destruct Hset as [_ ->].
    intro H; inversion H; subst; exact Hbuild.
  - intro H; inversion H; subst; exact Hbuild.
Qed.

(** What a call of [query] does to the slot and to the attached listeners:
    nothing, or one listener attached under the fresh handle, which the slot
    then holds. *)
Lemma query_world (queryString : string) (onChangeListener : option Listener)
    (w : World) :
  let w' := snd (query queryString onChangeListener w) in
  (unsubscribeListener w' = unsubscribeListener w /\
   attached w' = attached w /\
   nextHandle w' = nextHandle w) \/
  (exists cb,
      unsubscribeListener w' = Some (nextHandle w) /\
      attached w' = attached w ++ [(nextHandle w, cb)] /\
      nextHandle w' = S (nextHandle w)).
Proof.
  destruct (query queryString onChangeListener w) as [settled w'] eqn:Hq. simpl.
  destruct onChangeListener as [l |].
  - destruct settled as [v | e].
    + right. apply query_live_resolved in Hq.
      destruct Hq as (components & _ & _ & Hslot & Hatt & Hnext & _).
      eexists. repeat split; eassumption.
    + left. unfold query in Hq.
      destruct (queryBody queryString (Some l) w) as [[v | e'] w2] eqn:Hbody;
        inversion Hq; subst.
      apply queryBody_throw_sameListeners in Hbody.
      destruct Hbody as (Hslot & Hatt & Hnext & _). repeat split; assumption.
  - left. unfold query in Hq.
    destruct (queryBody queryString None w) as [[v | e'] w2] eqn:Hbody;
      inversion Hq; subst;
      apply queryBody_once_sameListeners in Hbody;
      destruct Hbody as (Hslot & Hatt & Hnext & _); repeat split; assumption.
Qed.

Lemma notify_world (h : Handle) (n : Notification) (w : World) :
  unsubscribeListener (notify h n w) = unsubscribeListener w /\
  attached (notify h n w) = attached w /\
  nextHandle (notify h n w) = nextHandle w.
Proof.
  unfold notify. destruct (lookupHandle h (attached w)) as [cb |]; [| repeat split].
  destruct n as [snapshot | e]; [destruct (onNext cb snapshot) |]; repeat split.
Qed.

Lemma wellFormed_step (w : World) (a : Action) :
  wellFormed w = true -> wellFormed (step w a) = true.
Proof.
  unfold wellFormed. rewrite !forallb_forall. intro Hwf.
  destruct a as [queryString onChangeListener | | h n]; simpl.
  - destruct (query_world queryString onChangeListener w)
      as [(_ & Hatt & Hnext) | (cb & _ & Hatt & Hnext)];
      rewrite Hatt, Hnext; [exact Hwf |].
    intros entry Hin. apply in_app_or in Hin. apply Nat.ltb_lt.
    destruct Hin as [Hin | [<- | []]]; [| simpl; lia].
    apply Hwf in Hin. apply Nat.ltb_lt in Hin. lia.
  - unfold cancel. destruct (unsubscribeListener w) as [h |]; [| exact Hwf].
    simpl. intros entry Hin. apply filter_In in Hin. apply Hwf, Hin.
  - destruct (notify_world h n w) as (_ & Hatt & Hnext). rewrite Hatt, Hnext. exact Hwf.
Qed.

Lemma wellFormed_run (actions : list Action) (w : World) :
  wellFormed w = true -> wellFormed (run actions w) = true.
Proof.
  revert w. induction actions as [| a rest IH]; intros w Hwf; [exact Hwf |].
  simpl. apply IH, wellFormed_step, Hwf.
Qed.

Lemma orphaned_step (h : Handle) (cb : Callbacks) (w : World) (a : Action) :
  orphaned h cb w -> orphaned h cb (step w a).
Proof.
  intros (Hlook & Hlt & h' & Hslot & Hyounger).
  destruct a as [queryString onChangeListener | | h0 n]; simpl.
  - destruct (query_world queryString onChangeListener w)
      as [(Hs & Hatt & Hnext) | (cb' & Hs & Hatt & Hnext)];
      unfold orphaned; rewrite Hs, Hatt, Hnext.
    + repeat split; try assumption. exists h'. split; assumption.
    + repeat split; [apply lookupHandle_app_found, Hlook | lia |].
      exists (nextHandle w). split; [reflexivity | exact Hlt].
  - unfold cancel. rewrite Hslot. unfold orphaned. simpl.
    rewrite lookupHandle_detach by lia.
    repeat split; try assumption. exists h'. split; assumption.
  - destruct (notify_world h0 n w) as (Hs & Hatt & Hnext).
    unfold orphaned. rewrite Hs, Hatt, Hnext.
    repeat split; try assumption. exists h'. split; assumption.
Qed.

Lemma orphaned_run (h : Handle) (cb : Callbacks) (actions : list Action) (w : World) :
  orphaned h cb w -> orphaned h cb (run actions w).
Proof.
  revert w. induction actions as [| a rest IH]; intros w Horphan; [exact Horphan |].
  simpl. apply IH, orphaned_step, Horphan.
Qed.

Lemma step_lookup (h : Handle) (w : World) (a : Action) :
  h < nextHandle w ->
  (lookupHandle h (attached (step w a)) = lookupHandle h (attached w) \/
   lookupHandle h (attached (step w a)) = None) /\
  h < nextHandle (step w a).
Proof.
  intro Hlt. destruct a as [queryString onChangeListener | | h0 n]; simpl.
  - destruct (query_world queryString onChangeListener w)
      as [(_ & Hatt & Hnext) | (cb & _ & Hatt & Hnext)]; rewrite Hatt, Hnext.
    + split; [left; reflexivity | exact Hlt].
    + split; [left; apply lookupHandle_app_other; lia | lia].
  - unfold cancel. destruct (unsubscribeListener w) as [h' |]; simpl.
    + split; [| exact Hlt].
      destruct (Nat.eq_dec h' h) as [-> | Hne].
      * right. apply lookupHandle_detached.
      * left. apply lookupHandle_detach. exact Hne.
    + split; [left; reflexivity | exact Hlt].
  - destruct (notify_world h0 n w) as (_ & Hatt & Hnext). rewrite Hatt, Hnext.
    split; [left; reflexivity | exact Hlt].
Qed.

(** A subscription is never attached again under the same handle: over any
    sequence of events the listener found under a handle already given out
    stays what it was, until it is detached for good. *)
Lemma run_lookup (h : Handle) (actions : list Action) (w : World) :
  h < nextHandle w ->
  (lookupHandle h (attached (run actions w)) = lookupHandle h (attached w) \/
   lookupHandle h (attached (run actions w)) = None) /\
  h < nextHandle (run actions w).
Proof.
  revert w. induction actions as [| a rest IH]; intros w Hlt.
  - split; [left; reflexivity | exact Hlt].
  - destruct (step_lookup h w a Hlt) as [Hstep Hlt'].
    destruct (IH (step w a) Hlt') as [Hrest Hlt''].
    simpl. split; [| exact Hlt''].
    destruct Hrest as [Hrest | Hrest]; [| right; exact Hrest].
    rewrite Hrest. exact Hstep.
Qed.

(** C8: the module has one slot, [unsubscribeListener], for all live
    queries.  Each live query that registers stores the handle of its own
    subscription there, whatever the slot held.  So once a second live query
    has registered while the first subscription was still attached, whatever
    happened between the two registrations (notifications, other queries,
    cancellations of other subscriptions), the slot holds the second handle,
    not the first; and whatever happens afterwards (further queries,
    cancellations through the slot, notifications), the slot never holds the
    first handle again, the first subscription stays attached to the store,
    and every notification the store sends it still reaches the first
    listener. *)
Theorem shared_unsubscribe_slot :
  forall (history between : list Action)
         (queryString1 queryString2 : string) (l1 l2 : Listener)
         (v1 v2 : option (QueryResult Document)) (w1 w2 : World),
    query queryString1 (Some l1) (run history initialWorld) = (Resolved v1, w1) ->
    lookupHandle (nextHandle (run history initialWorld)) (attached (run between w1))
      <> None ->
    query queryString2 (Some l2) (run between w1) = (Resolved v2, w2) ->
    exists (h1 h2 : Handle) (cb1 : Callbacks),
      h1 = nextHandle (run history initialWorld) /\
      h2 = nextHandle (run between w1) /\
      unsubscribeListener w1 = Some h1 /\
      lookupHandle h1 (attached w1) = Some cb1 /\
      unsubscribeListener w2 = Some h2 /\
      h2 <> h1 /\
      forall later : list Action,
        unsubscribeListener (run later w2) <> Some h1 /\
        lookupHandle h1 (attached (run later w2)) = Some cb1 /\
        (forall snapshot i,
            onNext cb1 snapshot = Ok i ->
            listener i = l1 /\
            notify h1 (Next snapshot) (run later w2) = invoke i (run later w2)) /\
        (forall e,
            notify h1 (Failed e) (run later w2) = invoke (failure l1 e) (run later w2)).
Proof.
  intros history between queryString1 queryString2 l1 l2 v1 v2 w1 w2 Hq1 Hstill Hq2.
  assert (Hwf : wellFormed (run history initialWorld) = true)
    by (apply wellFormed_run; reflexivity).
  apply query_live_resolved in Hq1.
  destruct Hq1 as (components1 & _ & _ & Hslot1 & Hatt1 & Hnext1 & _).
  apply query_live_resolved in Hq2.
  destruct Hq2 as (components2 & _ & _ & Hslot2 & Hatt2 & Hnext2 & _).
  set (w0 := run history initialWorld) in *.
  set (cb1 := callbacksFor (getQueryType components1) (projectionFields components1) l1) in *.
  assert (Hlook1 : lookupHandle (nextHandle w0) (attached w1) = Some cb1)
    by (rewrite Hatt1; apply lookupHandle_app_fresh, Hwf).
  assert (Hlt1 : nextHandle w0 < nextHandle w1) by lia.
  destruct (run_lookup (nextHandle w0) between w1 Hlt1) as [Hbetween Hlt].
  assert (Hlook : lookupHandle (nextHandle w0) (attached (run between w1)) = Some cb1)
    by (destruct Hbetween as [Hsame | Hnone]; [congruence | contradiction]).
  assert (Horphan : orphaned (nextHandle w0) cb1 w2).
  { unfold orphaned. rewrite Hatt2, Hslot2, Hnext2.
    repeat split; [apply lookupHandle_app_found, Hlook | lia |].
    eexists. split; [reflexivity | exact Hlt]. }
  exists (nextHandle w0), (nextHandle (run between w1)), cb1.
  do 6 (split; [first [reflexivity | assumption | lia] |]).
  intro later.
  destruct (orphaned_run _ _ later _ Horphan) as (Hlater & _ & h' & Hslot & Hyounger).
  destruct (callbacks_listener (getQueryType components1)
              (projectionFields components1) l1) as [Hnext Herr].
  split; [rewrite Hslot; intro H; inversion H; lia |].
  split; [exact Hlater |].
  split.
  - intros snapshot i Hi. split; [eapply Hnext; exact Hi |].
    unfold notify. rewrite Hlater. fold cb1 in Hi. rewrite Hi. reflexivity.
  - intro e. unfold notify. rewrite Hlater. fold cb1. rewrite <- Herr. reflexivity.
Qed.
End Process.

(** * Concrete runs on the recording client *)

(** Zero to five literals, with other components in between. *)
Lemma getQueryType_parity_witness :
  getQueryType [] = DOCUMENT /\
  getQueryType [All; DocumentExpression ["name"]] = DOCUMENT /\
  getQueryType [Literal "a"] = COLLECTION /\
  getQueryType [Literal "a"; Literal "b"] = DOCUMENT /\
  getQueryType [Literal "a"; Literal "b"; All; Literal "c"] = COLLECTION /\
  getQueryType [Literal "a"; Literal "b"; Literal "c"; Literal "d"] = DOCUMENT /\
  getQueryType [Literal "a"; Literal "b"; Literal "c"; Literal "d"; Literal "e"] = COLLECTION.
Proof.
  split; [apply (getQueryType_parity []); exists 0; reflexivity |].
  split; [apply (getQueryType_parity [All; DocumentExpression ["name"]]);
          exists 0; reflexivity |].
  split; [apply (getQueryType_parity [Literal "a"]); exists 0; reflexivity |].
  split; [apply (getQueryType_parity [Literal "a"; Literal "b"]); exists 1; reflexivity |].
  split; [apply (getQueryType_parity [Literal "a"; Literal "b"; All; Literal "c"]);
          exists 1; reflexivity |].
  split; [apply (getQueryType_parity [Literal "a"; Literal "b"; Literal "c"; Literal "d"]);
          exists 2; reflexivity |].
  apply (getQueryType_parity
           [Literal "a"; Literal "b"; Literal "c"; Literal "d"; Literal "e"]).
  exists 2. reflexivity.
Defined.

(** The literals [users], [abc], [posts] lead to the collection
    [users/abc/posts]; an [All] in front of the last one changes nothing. *)
Lemma parseQuery_traversal_witness :
  exists st : @BuilderState plainClient,
    @parseComponents plainClient
      ([Literal "users"; Literal "abc"; All] ++ Literal "posts" :: [])
      (@initialBuilder plainClient Root) = Ok st /\
    reference st = CollectionRef (DocumentRef (CollectionRef Root "users") "abc") "posts" /\
    path (reference st) = ["users"; "abc"; "posts"] /\
    collectionFlag st = false.
Proof.
  destruct (@parseQuery_traversal plainClient [Literal "users"; Literal "abc"; All] []
              "posts" (@initialWorld plainClient)) as (_ & _ & Hliteral & _).
  eexists. rewrite Hliteral. repeat split.
Defined.

(** [users/abc] fetched once: an error when it does not exist, one document
    with the fields [name] and [age] when it does. *)
Lemma getResult_document_witness :
  @getResult missingClient "users/abc" DOCUMENT
    (DocumentRef (CollectionRef Root "users") "abc") [] = Throw NoSuchDocument /\
  @getResult documentClient "users/abc" DOCUMENT
    (DocumentRef (CollectionRef Root "users") "abc") ["name"; "age"] =
  Ok [{| location := DocumentRef (CollectionRef Root "users") "abc";
         documentData := [("name", VString "A"); ("age", VNumber 3)];
         metadataExists := true |}].
Proof.
  split.
  - apply (@getResult_document missingClient "users/abc"
             (DocumentRef (CollectionRef Root "users") "abc") []
             {| snapshotExists := false;
                ref := DocumentRef (CollectionRef Root "users") "abc";
                data := [] |} eq_refl).
    reflexivity.
  - apply (@getResult_document documentClient "users/abc"
             (DocumentRef (CollectionRef Root "users") "abc") ["name"; "age"]
             (sampleSnapshot (DocumentRef (CollectionRef Root "users") "abc")) eq_refl).
    reflexivity.
Defined.

(** [users] fetched once: [docB] then [docA], as the store returned them. *)
Lemma getResult_collection_order_witness :
  exists documents : list RecordedDocument,
    @getResult collectionClient "users" COLLECTION (CollectionRef Root "users") [] =
      Ok documents /\
    map location documents =
      [DocumentRef (CollectionRef Root "users") "docB";
       DocumentRef (CollectionRef Root "users") "docA"].
Proof.
  destruct (@getResult_collection_order collectionClient "users"
              (CollectionRef Root "users") []
              [sampleSnapshot (DocumentRef (CollectionRef Root "users") "docB");
               sampleSnapshot (DocumentRef (CollectionRef Root "users") "docA")]
              eq_refl) as (documents & Hget & Hmap & _).
  exists documents. split; [exact Hget | rewrite Hmap; reflexivity].
Defined.

(** A DOCUMENT-mode listener on [users/abc]: what a snapshot of the missing
    document and what a transport error make of it. *)
Lemma setListener_notifications_witness :
  let w1 := snd (@setListener plainClient DOCUMENT
                   (DocumentRef (CollectionRef Root "users") "abc") [] 7
                   (@initialWorld plainClient)) in
  invocations
    (@notify plainClient 0
       (@Next plainClient
          (DocSnap {| snapshotExists := false;
                      ref := DocumentRef (CollectionRef Root "users") "abc";
                      data := [] |})) w1) =
  [@failure plainClient 7 NoSuchDocument] /\
  invocations (@notify plainClient 0 (@Failed plainClient (JsError "offline")) w1) =
  [@failure plainClient 7 (JsError "offline")].
Proof.
  intro w1.
  destruct (@setListener_notifications plainClient DOCUMENT
              (DocumentRef (CollectionRef Root "users") "abc") [] 7
              (@initialWorld plainClient) w1 eq_refl eq_refl) as (cb & Hlook & Hall).
  destruct (Hall w1 Hlook) as [Hdoc Herr].
  split.
  - destruct (Hdoc eq_refl {| snapshotExists := false;
                              ref := DocumentRef (CollectionRef Root "users") "abc";
                              data := [] |}) as [Hmissing _].
    exact (f_equal invocations (Hmissing eq_refl)).
  - destruct (Herr (JsError "offline")) as (_ & Hinv & _).
    exact Hinv.
Defined.

(** A live query on [users], a transport error and a one-shot query, a
    second live query, then cancellations through the slot and a third live
    query: the slot never names the first subscription, which still hears the
    store. *)
Lemma shared_unsubscribe_slot_witness :
  let w1 := snd (@query collectionClient "users" (Some 1) (@initialWorld collectionClient)) in
  let between := [@Notify collectionClient 0 (@Failed collectionClient (JsError "offline"));
                  @CallQuery collectionClient "users" None] in
  let w2 := snd (@query collectionClient "users" (Some 2)
                   (@run collectionClient between w1)) in
  let w3 := @run collectionClient
              [@Cancel collectionClient; @Cancel collectionClient;
               @CallQuery collectionClient "users" (Some 3); @Cancel collectionClient] w2 in
  unsubscribeListener w1 = Some 0 /\
  unsubscribeListener w2 = Some 1 /\
  unsubscribeListener w3 <> Some 0 /\
  invocations (@notify collectionClient 0 (@Failed collectionClient (JsError "timeout")) w3) =
  [@failure collectionClient 1 (JsError "offline");
   @failure collectionClient 1 (JsError "timeout")].
Proof.
  intros w1 between w2 w3.
  assert (Hstill : @lookupHandle collectionClient
                     (nextHandle (@run collectionClient [] (@initialWorld collectionClient)))
                     (attached (@run collectionClient between w1)) <> None)
    by discriminate.
  destruct (@shared_unsubscribe_slot collectionClient [] between "users" "users" 1 2
              None None w1 w2 eq_refl Hstill eq_refl)
    as (h1 & h2 & cb1 & Hh1 & Hh2 & Hslot1 & _ & Hslot2 & _ & Hlater).
  subst h1 h2.
  destruct (Hlater [@Cancel collectionClient; @Cancel collectionClient;
                    @CallQuery collectionClient "users" (Some 3);
                    @Cancel collectionClient]) as (Hslot3 & _ & _ & Herr).
  split; [exact Hslot1 |].
  split; [exact Hslot2 |].
  split; [exact Hslot3 |].
  exact (f_equal invocations (Herr (JsError "timeout"))).
Defined.

(** [users/abc] with an empty projection: projected when fetched once, not
    projected when listened to. *)
Lemma projected_flag_by_mode_witness :
  (exists qr w',
      @query emptyProjectionClient "users/abc" None (@initialWorld emptyProjectionClient) =
        (Resolved (Some qr), w') /\
      projected qr = true) /\
  (exists w' cb,
      @query emptyProjectionClient "users/abc" (Some 1) (@initialWorld emptyProjectionClient) =
        (Resolved None, w') /\
      attached w' = [(0, cb)] /\
      forall snapshot i qr,
        onNext cb snapshot = Ok i -> result i = Some qr -> projected qr = false).
Proof.
  destruct (@projected_flag_by_mode emptyProjectionClient "users/abc"
              [Literal "users"; Literal "abc"; DocumentExpression []]
              (@initialWorld emptyProjectionClient) eq_refl) as (_ & _ & Hempty).
  destruct (Hempty eq_refl) as (_ & Honce & Hlive).
  split.
  - eexists. eexists. split; [reflexivity |].
    eapply Honce. reflexivity.
  - destruct (Hlive 1 None _ eq_refl) as (cb & Hatt & Hcb).
    eexists. exists cb. split; [reflexivity |]. split; [exact Hatt | exact Hcb].
Defined.

(** The sequence holds a [DocumentExpression] with an empty field list, yet the
    live result is marked projected: a later [DocumentExpression] has replaced
    the projection list. *)
Lemma projected_flag_counterexample :
  let components := [Literal "users"; DocumentExpression []; DocumentExpression ["name"]] in
  let settled := @query twoProjectionsClient "users" (Some 1)
                   (@initialWorld twoProjectionsClient) in
  @parse twoProjectionsClient "users" = Ok components /\
  In (DocumentExpression []) components /\
  fst settled = Resolved None /\
  invocations
    (@notify twoProjectionsClient 0 (@Next twoProjectionsClient (QuerySnap []))
       (snd settled)) =
  [{| listener := 1;
      result := Some {| documents := []; projected := true |};
      error := None |}].
Proof.
  intros components settled.
  split; [reflexivity |].
  split; [right; left; reflexivity |].
  split; reflexivity.
Qed.

(** A query string the parser rejects, and a query with no literal, whose
    reference is the Firestore handle and cannot be listened to: in both the
    listener hears the error and the promise is rejected with it; and the
    second query again with a listener that throws, where the promise is
    rejected with what the listener threw. *)
Lemma query_failure_two_channels_witness :
  (let client := RecordingClient (fun _ => Throw (JsError "syntax error")) emptyStore in
   @query client "?" (Some 3) (@initialWorld client) =
   (Rejected (JsError "syntax error"),
    @invoke client (@failure client 3 (JsError "syntax error")) (@initialWorld client))) /\
  (let settled := @query plainClient "" (Some 3) (@initialWorld plainClient) in
   fst settled = Rejected (notAFunction "onSnapshot") /\
   invocations (snd settled) = [@failure plainClient 3 (notAFunction "onSnapshot")]) /\
  (let settled := @query throwingListenerClient "" (Some 3)
                    (@initialWorld throwingListenerClient) in
   fst settled = Rejected (JsError "listener failed") /\
   invocations (snd settled) =
     [@failure throwingListenerClient 3 (notAFunction "onSnapshot")]).
Proof.
  split; [| split].
  - intro client.
    apply (@query_failure_two_channels client "?" 3 (@initialWorld client)
             (JsError "syntax error")).
    reflexivity.
  - intro settled.
    destruct (@query_failure_two_channels plainClient "" 3 (@initialWorld plainClient)
                (notAFunction "onSnapshot")) as (_ & _ & Hregister & _).
    pose proof (Hregister [] Root [] false
                  (snd (@parseQuery plainClient [] (@initialWorld plainClient)))
                  (snd (@parseQuery plainClient [] (@initialWorld plainClient)))
                  eq_refl eq_refl eq_refl) as Hq.
    split.
    + exact (f_equal fst Hq).
    + exact (f_equal (fun p => invocations (snd p)) Hq).
  - intro settled.
    destruct (@query_failure_two_channels throwingListenerClient "" 3
                (@initialWorld throwingListenerClient)
                (notAFunction "onSnapshot")) as (_ & _ & Hregister & _).
    pose proof (Hregister [] Root [] false
                  (snd (@parseQuery throwingListenerClient []
                          (@initialWorld throwingListenerClient)))
                  (snd (@parseQuery throwingListenerClient []
                          (@initialWorld throwingListenerClient)))
                  eq_refl eq_refl eq_refl) as Hq.
    split.
    + exact (f_equal fst Hq).
    + exact (f_equal (fun p => invocations (snd p)) Hq).
Defined.

(** A live query with no literal cannot register, and its listener throws
    when it is told so: the listener has been called with the error of the
    registration, and the promise is rejected with another error, the one the
    listener threw. *)
Lemma query_failure_counterexample :
  let settled := @query throwingListenerClient "" (Some 3)
                   (@initialWorld throwingListenerClient) in
  @setListener throwingListenerClient (getQueryType []) Root [] 3
    (snd (@parseQuery throwingListenerClient [] (@initialWorld throwingListenerClient))) =
  (Throw (notAFunction "onSnapshot"),
   snd (@parseQuery throwingListenerClient [] (@initialWorld throwingListenerClient))) /\
  invocations (snd settled) = [@failure throwingListenerClient 3 (notAFunction "onSnapshot")] /\
  fst settled = Rejected (JsError "listener failed") /\
  fst settled <> Rejected (notAFunction "onSnapshot").
Proof.
  intro settled.
  split; [reflexivity |].
  split; [reflexivity |].
  split; [reflexivity |].
  discriminate.
Qed.

(** * Further properties *)

(** ** The classifier under edits of the sequence *)

Lemma literalCount_app (before after : list Component) :
  literalCount (before ++ after) = literalCount before + literalCount after.
Proof.
  induction before as [| c rest IH]; [reflexivity |].
  destruct c; simpl; rewrite IH; reflexivity.
Qed.

Lemma literalCount_insert (before after : list Component) (c : Component) :
  literalCount (before ++ c :: after) =
  (if isLiteral c then 1 else 0) + literalCount (before ++ after).
Proof.
  rewrite !literalCount_app. destruct c; simpl; lia.
Qed.

(** X1: the query type depends on the literals alone and flips with each of
    them.  Putting an [All], a [CollectionExpression] or a
    [DocumentExpression] anywhere in a sequence leaves the query type as it
    was; putting a [Literal] anywhere turns DOCUMENT into COLLECTION and
    COLLECTION into DOCUMENT.  The type of a concatenation is DOCUMENT exactly
    when the two parts have the same type. *)
Theorem getQueryType_insert :
  forall (before after : list Component) (c : Component),
    getQueryType (before ++ c :: after) =
      (if isLiteral c
       then otherType (getQueryType (before ++ after))
       else getQueryType (before ++ after)) /\
    getQueryType (before ++ after) =
      match getQueryType before with
      | DOCUMENT => getQueryType after
      | COLLECTION => otherType (getQueryType after)
      end.
Proof.
  intros before after c. rewrite !getQueryType_odd. split.
  - rewrite literalCount_insert.
    destruct (isLiteral c); simpl; [| reflexivity].
    rewrite Nat.odd_succ, <- Nat.negb_odd.
    destruct (Nat.odd (literalCount (before ++ after))); reflexivity.
  - rewrite literalCount_app, Nat.odd_add.
    destruct (Nat.odd (literalCount before)), (Nat.odd (literalCount after)); reflexivity.
Qed.

(** ** The builder's flag, cursor and projection *)

Section BuilderInvariants.
Context {C : Collaborators}.
Local Open Scope result_scope.

Lemma parseComponents_flag (components : list Component) (st0 st : BuilderState) :
  existsb isAll components = false ->
  parseComponents components st0 = Ok st ->
  collectionFlag st =
  if Nat.odd (literalCount components)
  then negb (collectionFlag st0)
  else collectionFlag st0.
Proof.
  revert st0. induction components as [| c rest IH]; intros st0 Hall Hrun.
  - inversion Hrun. reflexivity.
  - rewrite parseComponents_cons in Hrun.
    destruct (parseComponent st0 c) as [st1 | e] eqn:Hstep; [| discriminate].
    simpl in Hrun, Hall. apply orb_false_elim in Hall. destruct Hall as [Hc Hrest].
    rewrite (IH st1 Hrest Hrun).
    destruct c as [url | | expression | fields]; simpl in Hstep; try discriminate.
    + cbn [literalCount]. rewrite Nat.odd_succ, <- Nat.negb_odd.
      destruct (collectionFlag st0) eqn:Hflag;
        [destruct (collection (reference st0) url) | destruct (doc (reference st0) url)];
        simpl in Hstep; inversion Hstep; subst; simpl;
        destruct (Nat.odd (literalCount rest)); reflexivity.
    + cbn [literalCount].
      destruct (instanceofCollectionReference (reference st0)).
      * destruct (foldResult applyExpression expression (Ok (reference st0)));
          simpl in Hstep; inversion Hstep; subst; reflexivity.
      * inversion Hstep; subst; reflexivity.
    + inversion Hstep; subst; reflexivity.
Qed.

(** X2: on a sequence without [All] the builder and the classifier agree.
    When [parseQuery]'s loop gets through such a sequence, its collection
    flag, which says that the next literal names a collection, is set exactly
    when [getQueryType] answers DOCUMENT and clear exactly when it answers
    COLLECTION. *)
Theorem builder_flag_matches_queryType :
  forall (components : list Component) (root : Ref) (st : BuilderState),
    existsb isAll components = false ->
    parseComponents components (initialBuilder root) = Ok st ->
    collectionFlag st =
    match getQueryType components with
    | DOCUMENT => true
    | COLLECTION => false
    end.
Proof.
  intros components root st Hall Hrun.
  rewrite (parseComponents_flag _ _ _ Hall Hrun), getQueryType_odd.
  destruct (Nat.odd (literalCount components)); reflexivity.
Qed.

Lemma sameOutcome_bind (a b : Result BuilderState)
    (f g : BuilderState -> Result BuilderState) :
  sameOutcome a b ->
  (forall st st', sameCursor st st' -> sameOutcome (f st) (g st')) ->
  sameOutcome (st <- a ;; f st) (st <- b ;; g st).
Proof.
  destruct a as [st | e], b as [st' | e']; simpl; intros Hab Hfg;
    try contradiction; [apply Hfg, Hab | exact Hab].
Qed.

Lemma parseComponent_sameCursor (a b : BuilderState) (c : Component) :
  sameCursor a b ->
  sameOutcome (parseComponent a c) (parseComponent b c).
Proof.
  intros [Href Hflag].
  destruct c as [url | | expression | fields]; simpl; rewrite <- ?Href, <- ?Hflag.
  - destruct (collectionFlag a);
      [destruct (collection (reference a) url) | destruct (doc (reference a) url)];
      simpl; try reflexivity; split; reflexivity.
  - split; reflexivity.
  - destruct (instanceofCollectionReference (reference a)).
    + destruct (foldResult applyExpression expression (Ok (reference a)));
        simpl; try reflexivity; split; reflexivity.
    + split; [exact Href | exact Hflag].
  - split; reflexivity.
Qed.

Lemma parseComponents_sameCursor (components : list Component) (a b : BuilderState) :
  sameCursor a b ->
  sameOutcome (parseComponents components a)
    (parseComponents (filter notDocumentExpression components) b).
Proof.
  revert a b. induction components as [| c rest IH]; intros a b Hab; [exact Hab |].
  rewrite parseComponents_cons.
  destruct c as [url | | expression | fields]; cbn [filter notDocumentExpression
    isDocumentExpression negb];
    try (rewrite parseComponents_cons; apply sameOutcome_bind;
         [apply parseComponent_sameCursor, Hab | intros st st'; apply IH]).
  simpl. apply IH. destruct Hab as [Href Hflag]. split; assumption.
Qed.

(** X3: a [DocumentExpression] never moves the cursor.  The loop run on a
    sequence and the loop run on the same sequence with every
    [DocumentExpression] taken out make the same store calls: both throw the
    same error, or both end with the same reference and the same collection
    flag. *)
Theorem cursor_ignores_projection :
  forall (components : list Component) (st0 : BuilderState),
    sameOutcome (parseComponents components st0)
      (parseComponents (filter notDocumentExpression components) st0).
Proof.
  intros components st0. apply parseComponents_sameCursor. split; reflexivity.
Qed.

Lemma lastProjection_after (before after : list Component) (fields : list string) :
  existsb isDocumentExpression after = false ->
  lastProjection (before ++ DocumentExpression fields :: after) = Some fields.
Proof.
  intro Hafter.
  assert (Hnone : lastProjection after = None).
  { induction after as [| c rest IH]; [reflexivity |].
    simpl in Hafter. apply orb_false_elim in Hafter. destruct Hafter as [Hc Hrest].
    simpl. rewrite (IH Hrest). destruct c; try reflexivity; discriminate. }
  induction before as [| c rest IH]; simpl.
  - rewrite Hnone. reflexivity.
  - rewrite IH. reflexivity.
Qed.

(** X4: the last [DocumentExpression] decides the projection.  When
    [parseQuery] succeeds on a sequence whose last [DocumentExpression] lists
    [fields], it returns [specificProperties = fields] and
    [documentExpression = true], whatever earlier document expressions listed;
    when the sequence holds no [DocumentExpression] at all, it returns the
    empty list and [false]. *)
Theorem parseQuery_projection :
  forall (components : list Component) (w w' : World)
         (r : Ref) (returned : list string) (seen : bool),
    parseQuery components w = (Ok (r, returned, seen), w') ->
    (forall before fields after,
        components = before ++ DocumentExpression fields :: after ->
        existsb isDocumentExpression after = false ->
        returned = fields /\ seen = true) /\
    (existsb isDocumentExpression components = false ->
     returned = [] /\ seen = false).
Proof.
  intros components w w' r returned seen Hbuild.
  apply parseQuery_ok in Hbuild.
  destruct Hbuild as (root & st & _ & Hrun & _ & -> & ->).
  apply parseComponents_projection in Hrun. destruct Hrun as [Hfields Hseen].
  simpl in Hfields, Hseen. split.
  - intros before fields after -> Hafter.
    rewrite Hfields, Hseen, (lastProjection_after _ _ _ Hafter).
    split; [reflexivity |].
    rewrite existsb_app. simpl. apply orb_true_r.
  - intro Hnone. rewrite Hseen, Hfields. split; [| exact Hnone].
    destruct (lastProjection components) as [fields |] eqn:Hlast; [| reflexivity].
    apply lastProjection_In in Hlast.
    assert (Hsome : existsb isDocumentExpression components = true)
      by (apply existsb_isDocumentExpression; eexists; exact Hlast).
    congruence.
Qed.
End BuilderInvariants.

(** ** The connection cache *)

Section ConnectionCache.
Context {C : Collaborators}.
Local Open Scope result_scope.

Lemma existsb_eqb_In (project : string) (projects : list string) :
  existsb (String.eqb project) projects = true <-> In project projects.
Proof.
  rewrite existsb_exists. split.
  - intros (q & Hin & Heq). apply String.eqb_eq in Heq. subst. exact Hin.
  - intro Hin. exists project. split; [exact Hin | apply String.eqb_refl].
Qed.

(** What [connect] does to the list of initialised projects. *)
Lemma connect_cache (w w' : World) (r : Result Ref) :
  connect w = (r, w') ->
  (firebaseAppsInitialized w' = firebaseAppsInitialized w \/
   (existsb (String.eqb getCurrentProject) (firebaseAppsInitialized w) = false /\
    firebaseAppsInitialized w' = firebaseAppsInitialized w ++ [getCurrentProject])) /\
  (existsb (String.eqb getCurrentProject) (firebaseAppsInitialized w) = true ->
   firebaseAppsInitialized w' = firebaseAppsInitialized w) /\
  (forall root, r = Ok root ->
                In getCurrentProject (firebaseAppsInitialized w') /\
                firestore w' = Some root).
Proof.
  unfold connect, bind, lift, modify, ret.
  destruct (existsb (String.eqb getCurrentProject) (firebaseAppsInitialized w)) eqn:Hin.
  - apply existsb_eqb_In in Hin.
    destruct (firestoreOf getCurrentProject) as [fs | e]; intro H; inversion H; subst;
      simpl; (split; [left; reflexivity | split; [reflexivity |]]);
      intros root Hroot; inversion Hroot; subst; split; [exact Hin | reflexivity].
  - destruct (initializeApp getCurrentProject).
    + destruct (firestoreOf getCurrentProject) as [fs | e].
      * destruct (settings fs); intro H; inversion H; subst; simpl;
          (split; [right; split; reflexivity | split; [discriminate |]]);
          intros root Hroot; inversion Hroot; subst;
          split; [apply in_or_app; right; left; reflexivity | reflexivity].
      * intro H; inversion H; subst; simpl.
        split; [right; split; reflexivity | split; [discriminate |]].
        intros root Hroot; discriminate.
    + intro H; inversion H; subst.
      split; [left; reflexivity | split; [discriminate |]].
      intros root Hroot; discriminate.
Qed.

(** X5: a project is initialised at most once.  Once the current project
    is on the list of initialised projects, [parseQuery] neither initialises
    its app nor applies settings again: its outcome is that of fetching the
    Firestore handle and running the loop, whatever [initializeApp] and
    [settings] would answer, and the list stays as it is.  While the project
    is not on the list, it is put there exactly when [initializeApp] succeeds,
    at once and whatever follows; when [initializeApp] throws, [parseQuery]
    throws that error and changes nothing.  In every case the list gets no
    repetition and loses no entry, and whenever [parseQuery] returns the
    current project is on it. *)
Theorem parseQuery_initialises_once :
  forall (components : list Component) (w w' : World)
         (r : Result (Ref * list string * bool)),
    parseQuery components w = (r, w') ->
    (NoDup (firebaseAppsInitialized w) -> NoDup (firebaseAppsInitialized w')) /\
    (forall project, In project (firebaseAppsInitialized w) ->
                     In project (firebaseAppsInitialized w')) /\
    (In getCurrentProject (firebaseAppsInitialized w) ->
     firebaseAppsInitialized w' = firebaseAppsInitialized w) /\
    (forall value, r = Ok value -> In getCurrentProject (firebaseAppsInitialized w')) /\
    (In getCurrentProject (firebaseAppsInitialized w) ->
     (r, w') =
     match firestoreOf getCurrentProject with
     | Ok fs =>
         (st <- parseComponents components (initialBuilder fs) ;;
          Ok (reference st, specificProperties st, documentExpression st),
          setFirestore fs w)
     | Throw e => (Throw e, w)
     end) /\
    (~ In getCurrentProject (firebaseAppsInitialized w) ->
     (forall e, initializeApp getCurrentProject = Throw e -> r = Throw e /\ w' = w) /\
     (forall u, initializeApp getCurrentProject = Ok u ->
                firebaseAppsInitialized w' =
                firebaseAppsInitialized w ++ [getCurrentProject])).
Proof.
  intros components w w' r Hbuild.
  pose proof Hbuild as Hexact.
  rewrite parseQuery_connect in Hbuild.
  destruct (connect w) as [rc w1] eqn:Hconnect.
  pose proof Hconnect as Hraw.
  apply connect_cache in Hconnect. destruct Hconnect as (Hlist & Hcached & Hroot).
  assert (Hw : w' = w1) by (destruct rc; inversion Hbuild; reflexivity).
  subst w1.
  split; [| split; [| split; [| split; [| split]]]].
  - intro Hnodup. destruct Hlist as [-> | [Hfresh ->]]; [exact Hnodup |].
    apply NoDup_app; [exact Hnodup | repeat constructor; intros [] | ].
    intros project Hin [<- | []].
    apply existsb_eqb_In in Hin. congruence.
  - intros project Hin. destruct Hlist as [-> | [_ ->]]; [exact Hin |].
    apply in_or_app. left. exact Hin.
  - intro Hin. apply Hcached, existsb_eqb_In, Hin.
  - intros value Hvalue. destruct rc as [root | e].
    + apply (Hroot root eq_refl).
    + subst r. inversion Hbuild.
  - intro Hin. apply existsb_eqb_In in Hin.
    rewrite <- Hexact, parseQuery_connect.
    unfold connect, bind, lift, modify, ret. rewrite Hin.
    destruct (firestoreOf getCurrentProject); reflexivity.
  - intro Hnot.
    assert (Hfresh : existsb (String.eqb getCurrentProject)
                       (firebaseAppsInitialized w) = false).
    { destruct (existsb (String.eqb getCurrentProject) (firebaseAppsInitialized w))
        eqn:Hin; [| reflexivity].
      apply existsb_eqb_In in Hin. contradiction. }
    unfold connect, bind, lift, modify, ret in Hraw. rewrite Hfresh in Hraw.
    split.
    + intros e Hinit. rewrite Hinit in Hraw. inversion Hraw; subst.
      inversion Hbuild. split; reflexivity.
    + intros u Hinit. rewrite Hinit in Hraw.
      destruct (firestoreOf getCurrentProject) as [fs | e].
      * destruct (settings fs); inversion Hraw; reflexivity.
      * inversion Hraw; reflexivity.
Qed.

(** X6: what a failed first use leaves behind.  For a project not yet
    initialised: when loading and initialising the app throws, [parseQuery]
    throws that error and the process state is untouched, so the next call
    tries again.  But when the app initialises and [firestore.settings] then
    throws, [parseQuery] throws that error with the project already recorded
    as initialised, so every later call skips initialisation and runs its
    loop on a Firestore handle whose settings were never applied. *)
Theorem failed_first_use :
  forall (components : list Component) (w : World),
    existsb (String.eqb getCurrentProject) (firebaseAppsInitialized w) = false ->
    (forall e, initializeApp getCurrentProject = Throw e ->
               parseQuery components w = (Throw e, w)) /\
    (forall fs e,
        initializeApp getCurrentProject = Ok tt ->
        firestoreOf getCurrentProject = Ok fs ->
        settings fs = Throw e ->
        exists w1,
          parseQuery components w = (Throw e, w1) /\
          In getCurrentProject (firebaseAppsInitialized w1) /\
          forall later,
            parseQuery later w1 =
            (st <- parseComponents later (initialBuilder fs) ;;
             Ok (reference st, specificProperties st, documentExpression st), w1)).
Proof.
  intros components w Hfresh. split.
  - intros e Hinit. rewrite parseQuery_connect.
    unfold connect, bind, lift, modify, ret. rewrite Hfresh, Hinit. reflexivity.
  - intros fs e Hinit Hfs Hsettings.
    exists (setFirestore fs (pushInitialized getCurrentProject w)).
    split; [| split].
    + rewrite parseQuery_connect.
      unfold connect, bind, lift, modify, ret.
      rewrite Hfresh, Hinit, Hfs, Hsettings. reflexivity.
    + simpl. apply in_or_app. right. left. reflexivity.
    + intro later. rewrite parseQuery_connect.
      assert (Hin : existsb (String.eqb getCurrentProject)
                      (firebaseAppsInitialized
                         (setFirestore fs (pushInitialized getCurrentProject w))) = true).
      { apply existsb_eqb_In. simpl. apply in_or_app. right. left. reflexivity. }
      unfold connect, bind, lift, modify, ret. rewrite Hin, Hfs. reflexivity.
Qed.
End ConnectionCache.

(** ** Queries, the slot and the listeners *)

Section SlotDiscipline.
Context {C : Collaborators}.

(** X7: a one-shot query leaves the subscriptions alone.  A call of [query]
    without a change listener, whether its promise resolves or rejects, calls
    no listener, attaches nothing to the store, hands out no handle and
    leaves [unsubscribeListener] as it was. *)
Theorem query_once_leaves_listeners :
  forall (queryString : string) (w : World),
    unsubscribeListener (snd (query queryString None w)) = unsubscribeListener w /\
    attached (snd (query queryString None w)) = attached w /\
    nextHandle (snd (query queryString None w)) = nextHandle w /\
    invocations (snd (query queryString None w)) = invocations w.
Proof.
  intros queryString w. unfold query.
  destruct (queryBody queryString None w) as [[value | e] w'] eqn:Hbody;
    apply queryBody_once_sameListeners in Hbody; exact Hbody.
Qed.

(** X8: a live query that fails does not take the slot.  When [query] is
    called with a change listener and its promise is rejected, nothing was
    attached to the store, no handle was handed out and [unsubscribeListener]
    still holds what it held before, so a subscription registered earlier can
    still be cancelled through it. *)
Theorem failed_live_query_keeps_slot :
  forall (queryString : string) (l : Listener) (w w' : World) (e : Error),
    query queryString (Some l) w = (Rejected e, w') ->
    unsubscribeListener w' = unsubscribeListener w /\
    attached w' = attached w /\
    nextHandle w' = nextHandle w /\
    attached (cancel w') = attached (cancel w).
Proof.
  intros queryString l w w' e Hq. unfold query in Hq.
  destruct (queryBody queryString (Some l) w) as [[value | e'] w2] eqn:Hbody;
    inversion Hq; subst.
  apply queryBody_throw_sameListeners in Hbody.
  destruct Hbody as (Hslot & Hatt & Hnext & Hinv).
  split; [exact Hslot |]. split; [exact Hatt |]. split; [exact Hnext |].
  unfold cancel. simpl. rewrite Hslot.
  destruct (unsubscribeListener w); simpl; rewrite Hatt; reflexivity.
Qed.

(** X9: the latest live query can always be cancelled, and only it.  At any
    point of the life of the process, once a live query has registered, a
    call of [unsubscribeListener()] detaches that query's subscription: the
    store no longer finds a listener under its handle and a notification sent
    to it calls nobody.  Every other subscription is as it was before the
    query. *)
Theorem latest_subscription_cancellable :
  forall (history : list Action) (queryString : string) (l : Listener)
         (v : option (QueryResult Document)) (w1 : World),
    query queryString (Some l) (run history initialWorld) = (Resolved v, w1) ->
    lookupHandle (nextHandle (run history initialWorld)) (attached w1) <> None /\
    lookupHandle (nextHandle (run history initialWorld)) (attached (cancel w1)) = None /\
    (forall n,
        notify (nextHandle (run history initialWorld)) n (cancel w1) = cancel w1) /\
    (forall h,
        h <> nextHandle (run history initialWorld) ->
        lookupHandle h (attached (cancel w1)) =
        lookupHandle h (attached (run history initialWorld))).
Proof.
  intros history queryString l v w1 Hq.
  assert (Hwf : wellFormed (run history initialWorld) = true)
    by (apply wellFormed_run; reflexivity).
  apply query_live_resolved in Hq.
  destruct Hq as (components & _ & _ & Hslot & Hatt & _ & _).
  set (w0 := run history initialWorld) in *.
  assert (Hcancel : attached (cancel w1) =
                    filter (fun entry => negb (Nat.eqb (fst entry) (nextHandle w0)))
                      (attached w1))
    by (unfold cancel; rewrite Hslot; reflexivity).
  split; [| split; [| split]].
  - rewrite Hatt, (lookupHandle_app_fresh _ _ _ Hwf). discriminate.
  - rewrite Hcancel. apply lookupHandle_detached.
  - intro n. unfold notify. rewrite Hcancel, lookupHandle_detached. reflexivity.
  - intros h Hne. rewrite Hcancel, lookupHandle_detach by congruence.
    rewrite Hatt. apply lookupHandle_app_other. exact Hne.
Qed.

Lemma fold_left_push_if {A B : Type} (keep : A -> bool) (f : A -> B)
    (xs : list A) (acc : list B) :
  fold_left (fun documents x => if keep x then documents ++ [f x] else documents) xs acc =
  acc ++ map f (filter keep xs).
Proof.
  revert acc. induction xs as [| x rest IH]; intro acc; simpl.
  - symmetry. apply app_nil_r.
  - rewrite IH. destruct (keep x); simpl; [rewrite <- app_assoc |]; reflexivity.
Qed.

(** X10: what a COLLECTION-mode listener hears.  On every snapshot of the
    collection the listener is called once, with no error and with one
    [Document] per document snapshot that exists, in the order of the
    snapshot; snapshots of documents that do not exist are left out, which the
    one-shot path does not do.  So the live result lists at most as many
    documents as the snapshot, and when every document of the snapshot exists
    it lists the very documents a one-shot fetch of that snapshot returns. *)
Theorem live_collection_documents :
  forall (specificProperties : list string) (l : Listener)
         (docs : list (DocumentSnapshot Ref)),
    onNext (collectionCallbacks specificProperties l) (QuerySnap docs) =
      Ok (success l (buildDocuments specificProperties (filter snapshotExists docs))
            (nonEmpty specificProperties)) /\
    List.length (buildDocuments specificProperties (filter snapshotExists docs)) <=
      List.length docs /\
    (forall queryString reference,
        get reference = Ok (QuerySnap docs) ->
        forallb snapshotExists docs = true ->
        getResult queryString COLLECTION reference specificProperties =
        Ok (buildDocuments specificProperties (filter snapshotExists docs))).
Proof.
  intros specificProperties l docs. split; [| split].
  - simpl. unfold success, buildDocuments.
    rewrite (fold_left_push_if snapshotExists
               (fun d => buildDocument (ref d) d specificProperties)).
    reflexivity.
  - unfold buildDocuments. rewrite length_map. apply filter_length_le.
  - intros queryString reference Hget Hall.
    unfold getResult. rewrite Hget. cbn [rbind].
    rewrite (fold_left_push (fun d => buildDocument (ref d) d specificProperties)).
    unfold buildDocuments. simpl. f_equal. f_equal.
    symmetry. apply forallb_filter_id. exact Hall.
Qed.
End SlotDiscipline.

(** ** The builder against the recording client *)

Lemma literalValues_app (before after : list Component) :
  literalValues (before ++ after) = literalValues before ++ literalValues after.
Proof.
  induction before as [| c rest IH]; [reflexivity |].
  destruct c; simpl; rewrite IH; reflexivity.
Qed.

(** What holds of every state the loop reaches from the Firestore handle of
    the recording client. *)
Lemma recorded_builder_invariant
    (parser : string -> Result (list Component))
    (store : RecordedRef -> Result (Snapshot RecordedRef))
    (components : list Component)
    (st : @BuilderState (RecordingClient parser store)) :
  @parseComponents (RecordingClient parser store) components
    (@initialBuilder (RecordingClient parser store) Root) = Ok st ->
  path (reference st) = literalValues components /\
  isQueryable (reference st) = Nat.odd (literalCount components) /\
  (collectionFlag st = false -> isQueryable (reference st) = true).
Proof.
  revert st. induction components as [| c cs IH] using rev_ind; intros st Hrun.
  - inversion Hrun. repeat split. discriminate.
  - rewrite parseComponents_app in Hrun.
    destruct (@parseComponents (RecordingClient parser store) cs
                (@initialBuilder (RecordingClient parser store) Root))
      as [st1 | e] eqn:Hprefix; [| discriminate].
    cbn [rbind] in Hrun. rewrite parseComponents_cons in Hrun.
    destruct (@parseComponent (RecordingClient parser store) st1 c)
      as [st2 | e] eqn:Hstep; [| discriminate].
    inversion Hrun; subst st2. clear Hrun.
    destruct (IH st1 eq_refl) as (Hpath & Hkind & Hflag).
    rewrite literalValues_app, literalCount_app.
    destruct c as [url | | expression | fields]; cbn [literalValues literalCount].
    + rewrite Nat.add_1_r, Nat.odd_succ, <- Nat.negb_odd, <- Hkind, <- Hpath.
      cbn [parseComponent] in Hstep.
      destruct (collectionFlag st1) eqn:Hf.
      * cbn in Hstep. destruct (reference st1) eqn:Href; cbn in Hstep;
          inversion Hstep; subst; cbn; repeat split.
      * specialize (Hflag eq_refl).
        cbn in Hstep. destruct (reference st1) eqn:Href; cbn in Hstep, Hflag;
          try discriminate; inversion Hstep; subst; cbn; repeat split; discriminate.
    + rewrite Nat.add_0_r, app_nil_r. inversion Hstep; subst. cbn.
      repeat split; try assumption. discriminate.
    + rewrite Nat.add_0_r, app_nil_r. cbn [parseComponent] in Hstep.
      destruct (@instanceofCollectionReference (RecordingClient parser store)
                  (reference st1)) eqn:Hcoll.
      * rewrite foldResult_applyExpression in Hstep.
        assert (Hq : isQueryable (reference st1) = true)
          by (cbn in Hcoll; destruct (reference st1); try discriminate; reflexivity).
        destruct (recorded_refinements_in_order parser store expression
                    (reference st1) Hq) as (r' & Hcalls & Hq' & _ & Hpath').
        rewrite Hcalls in Hstep. cbn [rbind] in Hstep. inversion Hstep; subst. cbn.
        repeat split; try congruence.
      * inversion Hstep; subst. repeat split; assumption.
    + rewrite Nat.add_0_r, app_nil_r. inversion Hstep; subst. cbn.
      repeat split; assumption.
Qed.

(** X11: against a client with the methods of the Firestore client, a
    successful run of the builder ends where the classifier says.  Whenever
    the loop of [parseQuery] gets through a sequence on the recording client,
    the path of the reference it built is the list of the literal values in
    their order, and the reference is a collection or a query on one exactly
    when [getQueryType] answers COLLECTION, the Firestore handle or a document
    exactly when it answers DOCUMENT. *)
Theorem recorded_reference_matches_queryType :
  forall (parser : string -> Result (list Component))
         (store : RecordedRef -> Result (Snapshot RecordedRef))
         (components : list Component)
         (st : @BuilderState (RecordingClient parser store)),
    @parseComponents (RecordingClient parser store) components
      (@initialBuilder (RecordingClient parser store) Root) = Ok st ->
    path (reference st) = literalValues components /\
    isQueryable (reference st) =
      match getQueryType components with
      | COLLECTION => true
      | DOCUMENT => false
      end.
Proof.
  intros parser store components st Hrun.
  destruct (recorded_builder_invariant parser store components st Hrun)
    as (Hpath & Hkind & _).
  split; [exact Hpath |].
  rewrite Hkind, getQueryType_odd.
  destruct (Nat.odd (literalCount components)); reflexivity.
Qed.

(** ** Listener calls made by [query], and the wildcard *)

Section ListenerCalls.
Context {C : Collaborators}.
Local Open Scope result_scope.

(** X12: [query] itself calls a change listener in one case only.  A call
    of [query] whose promise resolves makes no call of a listener, whether it
    is a one-shot query or a live query that registers (its results come only
    with later notifications); a call without a listener makes none either.
    A call with a listener whose promise is rejected makes exactly one,
    [onChangeListener(null, caught)], where [caught] is the error the [try]
    block threw; the promise is rejected with [caught], or with what the
    listener threw on that call. *)
Theorem query_listener_calls :
  forall (queryString : string) (onChangeListener : option Listener) (w : World),
    (forall value,
        fst (query queryString onChangeListener w) = Resolved value ->
        invocations (snd (query queryString onChangeListener w)) = invocations w) /\
    (onChangeListener = None ->
     invocations (snd (query queryString onChangeListener w)) = invocations w) /\
    (forall l reason,
        onChangeListener = Some l ->
        fst (query queryString onChangeListener w) = Rejected reason ->
        exists caught,
          invocations (snd (query queryString onChangeListener w)) =
            invocations w ++ [failure l caught] /\
          reason = rejection l caught /\
          (listenerThrows l None (Some caught) = None -> reason = caught)).
Proof.
  intros queryString onChangeListener w.
  assert (Honce : invocations (snd (query queryString None w)) = invocations w).
  { unfold query.
    destruct (queryBody queryString None w) as [[v | e] w'] eqn:Hbody;
      apply queryBody_once_sameListeners in Hbody;
      destruct Hbody as (_ & _ & _ & Hinv); exact Hinv. }
  split; [| split].
  - intros value Hresolved. destruct onChangeListener as [l |]; [| exact Honce].
    destruct (query queryString (Some l) w) as [settled w'] eqn:Hq.
    simpl in Hresolved. subst settled.
    apply query_live_resolved in Hq.
    destruct Hq as (components & _ & _ & _ & _ & _ & Hinv). exact Hinv.
  - intros ->. exact Honce.
  - intros l reason -> Hrejected. unfold query in *.
    destruct (queryBody queryString (Some l) w) as [[v | caught] w2] eqn:Hbody;
      simpl in Hrejected; inversion Hrejected; subst.
    apply queryBody_throw_sameListeners in Hbody.
    destruct Hbody as (_ & _ & _ & Hinv).
    exists caught. simpl. rewrite Hinv.
    split; [reflexivity | split; [reflexivity |]].
    intro Hreturns. rewrite Hreturns. reflexivity.
Qed.

(** X13: an [All] met while the collection flag is set changes nothing.
    When the loop has reached a state that expects a collection (at the start
    of the query, or after a document), an [All] at that place can be taken
    out of the sequence without changing the run: same store calls, same
    result. *)
Theorem all_is_noop_when_collection_expected :
  forall (before after : list Component) (st0 st : BuilderState),
    parseComponents before st0 = Ok st ->
    collectionFlag st = true ->
    parseComponents (before ++ All :: after) st0 = parseComponents (before ++ after) st0.
Proof.
  intros before after st0 st Hrun Hflag.
  rewrite parseComponents_at, parseComponents_app, Hrun. cbn [rbind parseComponent].
  destruct st as [r flag fields seen]. simpl in Hflag. subst flag. reflexivity.
Qed.
End ListenerCalls.

(** X14: against a client with the methods of the Firestore client, an [All]
    that does change the flag breaks the next literal.  When the loop on the
    recording client has reached a state that expects a document (the cursor
    is a collection or a query on one), an [All] followed by a [Literal] makes
    the run throw, whatever comes after: the literal is taken for a collection
    name and [collection] is called on a reference that has no such
    method. *)
Theorem all_then_literal_throws :
  forall (parser : string -> Result (list Component))
         (store : RecordedRef -> Result (Snapshot RecordedRef))
         (before after : list Component) (value : string)
         (st : @BuilderState (RecordingClient parser store)),
    @parseComponents (RecordingClient parser store) before
      (@initialBuilder (RecordingClient parser store) Root) = Ok st ->
    collectionFlag st = false ->
    @parseComponents (RecordingClient parser store)
      (before ++ All :: Literal value :: after)
      (@initialBuilder (RecordingClient parser store) Root) =
    Throw (notAFunction "collection").
Proof.
  intros parser store before after value st Hrun Hflag.
  destruct (recorded_builder_invariant parser store before st Hrun) as (_ & _ & Hq).
  specialize (Hq Hflag).
  rewrite parseComponents_at, Hrun. cbn [rbind parseComponent].
  rewrite parseComponents_cons. cbn.
  destruct (reference st); cbn in Hq; try discriminate; reflexivity.
Qed.

(** * Concrete runs for the further properties *)

(** [users], a projection, [abc]: two literals, a document, and the flag says
    that a collection comes next. *)
Lemma builder_flag_matches_queryType_witness :
  exists st : @BuilderState plainClient,
    @parseComponents plainClient
      [Literal "users"; DocumentExpression ["name"]; Literal "abc"]
      (@initialBuilder plainClient Root) = Ok st /\
    getQueryType [Literal "users"; DocumentExpression ["name"]; Literal "abc"] = DOCUMENT /\
    collectionFlag st = true.
Proof.
  eexists. split; [reflexivity |]. split; [reflexivity |].
  exact (@builder_flag_matches_queryType plainClient
           [Literal "users"; DocumentExpression ["name"]; Literal "abc"] Root _
           eq_refl eq_refl).
Defined.

(** An empty projection followed by a projection on [name]: the second one is
    returned. *)
Lemma parseQuery_projection_witness :
  exists (r : RecordedRef) (returned : list string) (seen : bool) (w' : @World plainClient),
    @parseQuery plainClient
      ([Literal "users"; DocumentExpression []] ++ DocumentExpression ["name"] :: [])
      (@initialWorld plainClient) = (Ok (r, returned, seen), w') /\
    returned = ["name"] /\ seen = true.
Proof.
  do 4 eexists. split; [reflexivity |].
  exact (proj1 (@parseQuery_projection plainClient
                  ([Literal "users"; DocumentExpression []] ++
                   DocumentExpression ["name"] :: [])
                  (@initialWorld plainClient) _ _ _ _ eq_refl)
           [Literal "users"; DocumentExpression []] ["name"] [] eq_refl eq_refl).
Defined.

(** The project [demo] is recorded by the first call and not again by the
    second. *)
Lemma parseQuery_initialises_once_witness :
  let w1 := snd (@parseQuery plainClient [Literal "users"] (@initialWorld plainClient)) in
  let w2 := snd (@parseQuery plainClient [Literal "users"; Literal "abc"] w1) in
  In "demo" (firebaseAppsInitialized w1) /\
  firebaseAppsInitialized w2 = firebaseAppsInitialized w1 /\
  NoDup (firebaseAppsInitialized w2).
Proof.
  intros w1 w2.
  destruct (@parseQuery_initialises_once plainClient [Literal "users"]
              (@initialWorld plainClient) w1 _ eq_refl) as (Hnodup1 & _ & _ & Hin & _).
  destruct (@parseQuery_initialises_once plainClient [Literal "users"; Literal "abc"]
              w1 w2 _ eq_refl) as (Hnodup2 & _ & Hsame & _).
  pose proof (Hin _ eq_refl) as Hdemo.
  split; [exact Hdemo |].
  split; [exact (Hsame Hdemo) |].
  apply Hnodup2, Hnodup1. constructor.
Defined.

(** [firestore.settings] throws on the first call; the second call builds the
    collection [users] all the same. *)
Lemma failed_first_use_witness :
  exists w1 : @World unsettledClient,
    @parseQuery unsettledClient [Literal "users"] (@initialWorld unsettledClient) =
      (Throw (JsError "settings rejected"), w1) /\
    firebaseAppsInitialized w1 = ["demo"] /\
    fst (@parseQuery unsettledClient [Literal "users"] w1) =
      Ok (CollectionRef Root "users", [], false).
Proof.
  destruct (@failed_first_use unsettledClient [Literal "users"]
              (@initialWorld unsettledClient) eq_refl) as [_ Hsettings].
  destruct (Hsettings Root (JsError "settings rejected") eq_refl eq_refl eq_refl)
    as (w1 & Hfirst & _ & Hlater).
  exists w1. split; [exact Hfirst |].
  assert (Hw1 : w1 = snd (@parseQuery unsettledClient [Literal "users"]
                            (@initialWorld unsettledClient)))
    by (rewrite Hfirst; reflexivity).
  split.
  - rewrite Hw1. reflexivity.
  - rewrite (Hlater [Literal "users"]). reflexivity.
Defined.

(** A live query with no literal fails to register; the slot stays empty. *)
Lemma failed_live_query_keeps_slot_witness :
  let settled := @query plainClient "" (Some 3) (@initialWorld plainClient) in
  fst settled = Rejected (notAFunction "onSnapshot") /\
  unsubscribeListener (snd settled) = None /\
  attached (snd settled) = [].
Proof.
  intro settled.
  destruct (@failed_live_query_keeps_slot plainClient "" 3 (@initialWorld plainClient)
              (snd settled) (notAFunction "onSnapshot") eq_refl)
    as (Hslot & Hatt & _).
  split; [reflexivity |]. split; [exact Hslot | exact Hatt].
Defined.

(** Two live queries on [users] and one cancellation: the second subscription
    is gone, the first is still attached. *)
Lemma latest_subscription_cancellable_witness :
  let w0 := @run collectionClient [@CallQuery collectionClient "users" (Some 1)]
              (@initialWorld collectionClient) in
  let w1 := snd (@query collectionClient "users" (Some 2) w0) in
  @lookupHandle collectionClient 1 (attached (@cancel collectionClient w1)) = None /\
  @lookupHandle collectionClient 0 (attached (@cancel collectionClient w1)) =
  @lookupHandle collectionClient 0 (attached w0) /\
  @lookupHandle collectionClient 0 (attached w0) <> None.
Proof.
  intros w0 w1.
  destruct (@latest_subscription_cancellable collectionClient
              [@CallQuery collectionClient "users" (Some 1)] "users" 2 None w1 eq_refl)
    as (_ & Hgone & _ & Hothers).
  split; [exact Hgone |].
  split; [exact (Hothers 0 (fun H => O_S 0 H)) |].
  discriminate.
Defined.

(** [users] refined, [abc], an [All], [posts]: the collection
    [users/abc/posts]. *)
Lemma recorded_reference_matches_queryType_witness :
  exists st : @BuilderState plainClient,
    @parseComponents plainClient
      [Literal "users"; CollectionExpression []; Literal "abc"; All; Literal "posts";
       CollectionExpression [Limit 5]]
      (@initialBuilder plainClient Root) = Ok st /\
    path (reference st) = ["users"; "abc"; "posts"] /\
    isQueryable (reference st) = true.
Proof.
  eexists. split; [reflexivity |].
  exact (recorded_reference_matches_queryType (parsesTo []) emptyStore
           [Literal "users"; CollectionExpression []; Literal "abc"; All; Literal "posts";
            CollectionExpression [Limit 5]] _ eq_refl).
Defined.

(** Before the first literal an [All] is idle. *)
Lemma all_is_noop_when_collection_expected_witness :
  @parseComponents plainClient ([] ++ All :: [Literal "users"])
    (@initialBuilder plainClient Root) =
  Ok (@Build_BuilderState plainClient (CollectionRef Root "users") false [] false).
Proof.
  rewrite (@all_is_noop_when_collection_expected plainClient [] [Literal "users"]
             (@initialBuilder plainClient Root) (@initialBuilder plainClient Root)
             eq_refl eq_refl).
  reflexivity.
Defined.

(** [users], [All], [abc]: the second literal is refused. *)
Lemma all_then_literal_throws_witness :
  @parseComponents plainClient ([Literal "users"] ++ All :: Literal "abc" :: [])
    (@initialBuilder plainClient Root) =
  Throw (JsError "reference.collection is not a function").
Proof.
  exact (all_then_literal_throws (parsesTo []) emptyStore [Literal "users"] [] "abc"
           (@Build_BuilderState plainClient (CollectionRef Root "users") false [] false)
           eq_refl eq_refl).
Defined.
